(** * vlm-agentic-vqa: scene detection, answer judge and evaluation drivers

    A shallow embedding of [src/llm_judge.py], [src/zero_shot.py],
    [src/agent_pipelines/classic_agent.py] and
    [src/agent_pipelines/dl_agent.py], with the properties of the
    specification stated and proved over it.

    Conventions of the embedding.
    - A Python [str] is a [string]; every character is read as one code
      point below 256, and [str.strip], [str.lower] and the regular
      expression class [\w] follow CPython on that range.
    - A Python function is a computation in the monad [M]: it threads the
      interpreter state (the world the model backends live in, the log, and
      the two lists the drivers grow) and ends either with a value or with a
      raised [Exception].
    - The numbers OpenCV hands back (areas, perimeters, moments) and the
      accuracy are rationals: divisions and comparisons are exact. *)

From Stdlib Require Import List String Ascii Bool Arith ZArith NArith QArith Lia.
From Stdlib Require Import DecimalString.
Import ListNotations.

Local Open Scope string_scope.

(* ================================================================== *)
(** ** Python strings *)

Module PyStr.

Definition code (c : ascii) : N := N_of_ascii c.

Definition between (lo hi : N) (n : N) : bool := (lo <=? n)%N && (n <=? hi)%N.

(** [str.isspace] on one character, as [str.strip()] without argument uses
    it: TAB..CR, FS..US, SPACE, NEL and NBSP. *)
Definition isspace (c : ascii) : bool :=
  let n := code c in
  between 9 13 n || between 28 32 n || (n =? 133)%N || (n =? 160)%N.

(** The class [\w] of [re] on a [str] pattern: alphanumeric or underscore. *)
Definition isword (c : ascii) : bool :=
  let n := code c in
  between 48 57 n || between 65 90 n || (n =? 95)%N || between 97 122 n
  || (n =? 170)%N || (n =? 178)%N || (n =? 179)%N || (n =? 181)%N
  || (n =? 185)%N || (n =? 186)%N || between 188 190 n
  || between 192 214 n || between 216 246 n || between 248 255 n.

(** [str.lower] on one character. *)
Definition lower_char (c : ascii) : ascii :=
  let n := code c in
  if between 65 90 n || (between 192 222 n && negb (n =? 215)%N)
  then ascii_of_N (n + 32) else c.

Fixpoint lower (s : string) : string :=
  match s with
  | EmptyString => EmptyString
  | String c s' => String (lower_char c) (lower s')
  end.

Fixpoint lstrip (s : string) : string :=
  match s with
  | EmptyString => EmptyString
  | String c s' => if isspace c then lstrip s' else s
  end.

(** [rstrip] keeps a character when it is not white space or when something
    is left after it. *)
Fixpoint rstrip (s : string) : string :=
  match s with
  | EmptyString => EmptyString
  | String c s' =>
      match rstrip s' with
      | EmptyString => if isspace c then EmptyString else String c EmptyString
      | r => String c r
      end
  end.

Definition strip (s : string) : string := rstrip (lstrip s).

(** [str(n)] for an [int]. *)
Definition str_of_int (z : Z) : string := NilZero.string_of_int (Z.to_int z).

(** Characters that cannot be typed inside a literal. *)
Definition nl : string := String (ascii_of_nat 10) EmptyString.
Definition dq : string := String (ascii_of_nat 34) EmptyString.

End PyStr.

(* ================================================================== *)
(** ** The two regular expressions of the judge *)

Module Re.
Import PyStr.

Definition first (s : string) : option ascii :=
  match s with EmptyString => None | String c _ => Some c end.

Fixpoint last (prev : option ascii) (s : string) : option ascii :=
  match s with EmptyString => prev | String c s' => last (Some c) s' end.

Definition wordy (o : option ascii) : bool :=
  match o with Some c => isword c | None => false end.

(** [\b] holds between two positions exactly when one side is a word
    character and the other is not; the outside of the string is not. *)
Definition boundary (before after : option ascii) : bool :=
  xorb (wordy before) (wordy after).

(** What is left of [s] after the literal [lit], when [s] starts with it. *)
Fixpoint strip_prefix (lit s : string) : option string :=
  match lit with
  | EmptyString => Some s
  | String a lit' =>
      match s with
      | EmptyString => None
      | String b s' => if Ascii.eqb a b then strip_prefix lit' s' else None
      end
  end.

(** Does [\b lit \b] match at the current position, [prev] being the
    character just before it? *)
Definition match_here (lit : string) (prev : option ascii) (s : string) : bool :=
  boundary prev (first s) &&
  match strip_prefix lit s with
  | Some rest => boundary (last prev lit) (first rest)
  | None => false
  end.

(** [re.search] tries every start position from left to right. *)
Fixpoint search_from (lit : string) (prev : option ascii) (s : string) : bool :=
  match_here lit prev s ||
  match s with
  | EmptyString => false
  | String c s' => search_from lit (Some c) s'
  end.

(** [re.search(r'\b<lit>\b', s)] seen as a truth value. *)
Definition search_word (lit s : string) : bool := search_from lit None s.

(** The reading of "contains the standalone word [lit]": an occurrence of
    [lit] with no word character right before it and none right after. *)
Definition standalone (lit s : string) : Prop :=
  exists pre post,
    s = pre ++ lit ++ post /\
    wordy (last None pre) = false /\ wordy (first post) = false.

(** A literal that begins and ends with a word character. *)
Definition word_literal (lit : string) : Prop :=
  wordy (first lit) = true /\ forall p, wordy (last p lit) = true.

End Re.

(* ================================================================== *)
(** ** Python values, exceptions and the interpreter monad *)

(** The exceptions of the embedding are instances of [Exception]: the ones
    the modelled code can raise by itself, and [Error msg] for whatever a
    collaborator (model backend, OpenCV) raises. *)
Inductive exn : Type :=
| ZeroDivisionError
| IndexError
| TypeError
| KeyError (key : string)
| Error (msg : string).

Inductive result (A : Type) : Type :=
| Ok (a : A)
| Raise (e : exn).
Arguments Ok {A} a.
Arguments Raise {A} e.

(** What [inference] hands back: [None] or a list of completions. *)
Inductive response : Type :=
| PyNone
| PyList (completions : list string).

(** Truth value of a response, as [if response] and [if not response]. *)
Definition truthy (r : response) : bool :=
  match r with
  | PyList (_ :: _) => true
  | _ => false
  end.

(** [r[0]]. *)
Definition item0 (r : response) : result string :=
  match r with
  | PyNone => Raise TypeError
  | PyList [] => Raise IndexError
  | PyList (c :: _) => Ok c
  end.

(** The three drivers, as their log lines name them. *)
Inductive pipeline : Type := ZeroShot | ClassicAgent | DLAgent.

Inductive level : Type := INFO | WARNING | ERROR.

(** One constructor per logging call of the source, with the values its
    message interpolates. *)
Inductive message : Type :=
| JudgeNoResponse
| JudgeAmbiguous (raw : string)
| JudgeError (e : exn)
| Starting (p : pipeline)
| NoAnswer (index : nat)
| Complete (p : pipeline) (accuracy : Q)
| LoopError (p : pipeline) (e : exn)
| CouldNotRead (image_path : string)
| DetectionError (image_path : string) (e : exn).

Section Interp.

(** The state the model backends live in.  The model under test and the
    judge act on the same world, so that they may be one object. *)
Context {W : Type}.

Record state : Type := mkState {
  world : W;
  log : list (level * message);
  predictions : list string;
  scores : list Z
}.

Definition M (A : Type) : Type := state -> result A * state.

Definition ret {A} (a : A) : M A := fun s => (Ok a, s).

Definition bind {A B} (m : M A) (k : A -> M B) : M B :=
  fun s =>
    match m s with
    | (Ok a, s') => k a s'
    | (Raise e, s') => (Raise e, s')
    end.

Definition raise {A} (e : exn) : M A := fun s => (Raise e, s).

Definition lift {A} (r : result A) : M A := fun s => (r, s).

(** [try: body  except Exception as e: handler e]. *)
Definition try_except {A} (body : M A) (handler : exn -> M A) : M A :=
  fun s =>
    match body s with
    | (Ok a, s') => (Ok a, s')
    | (Raise e, s') => handler e s'
    end.

Definition logging (l : level) (m : message) : M unit :=
  fun s => (Ok tt, mkState (world s) (log s ++ [(l, m)]) (predictions s) (scores s)).

Definition set_predictions (p : list string) : M unit :=
  fun s => (Ok tt, mkState (world s) (log s) p (scores s)).

Definition set_scores (sc : list Z) : M unit :=
  fun s => (Ok tt, mkState (world s) (log s) (predictions s) sc).

Definition get_predictions : M (list string) := fun s => (Ok (predictions s), s).

Definition get_scores : M (list Z) := fun s => (Ok (scores s), s).

(** [predictions.append(x)] and [scores.append(x)]. *)
Definition predictions_append (x : string) : M unit :=
  fun s => (Ok tt, mkState (world s) (log s) (predictions s ++ [x]) (scores s)).

Definition scores_append (x : Z) : M unit :=
  fun s => (Ok tt, mkState (world s) (log s) (predictions s) (scores s ++ [x])).

(** [for x in xs: body x]. *)
Fixpoint for_each {A} (xs : list A) (body : A -> M unit) : M unit :=
  match xs with
  | [] => ret tt
  | x :: xs' => bind (body x) (fun _ => for_each xs' body)
  end.

(** A model object: all the code uses of it is
    [inference(prompt, image_path, max_new_tokens)]. *)
Record VLM : Type := mkVLM {
  inference : string -> option string -> option nat -> W -> result response * W
}.

Definition call_inference (vlm : VLM) (prompt : string)
    (image_path : option string) (max_new_tokens : option nat) : M response :=
  fun s =>
    let (r, w) := inference vlm prompt image_path max_new_tokens (world s) in
    (r, mkState w (log s) (predictions s) (scores s)).

End Interp.

Arguments state W : clear implicits.
Arguments M W A : clear implicits.
Arguments VLM W : clear implicits.

Declare Scope py_scope.
Delimit Scope py_scope with py.
Notation "x <- m ;; k" := (bind m (fun x => k))
  (at level 61, m at next level, right associativity) : py_scope.
Notation "m ;; k" := (bind m (fun _ => k))
  (at level 61, right associativity) : py_scope.

(* ================================================================== *)
(** ** Numbers *)

Module PyNum.

(** [a / b] on numbers: true division, raising on a zero divisor. *)
Definition truediv (a b : Q) : result Q :=
  if Qeq_bool b 0 then Raise ZeroDivisionError else Ok (a / b)%Q.

(** [int(x)] on a number: truncation towards zero. *)
Definition int (x : Q) : Z := Z.quot (Qnum x) (Zpos (Qden x)).

(** [a < b]. *)
Definition lt (a b : Q) : bool := negb (Qle_bool b a).

(** [sum(xs)] on a list of integers. *)
Definition sum (xs : list Z) : Z := fold_left Z.add xs 0%Z.

End PyNum.

(** Binding in the exception-only fragment, for code that touches no state. *)
Definition rbind {A B} (r : result A) (k : A -> result B) : result B :=
  match r with
  | Ok a => k a
  | Raise e => Raise e
  end.

Notation "x <~ r ;; k" := (rbind r (fun x => k))
  (at level 61, r at next level, right associativity) : py_scope.

(** [for x in xs: acc = body x acc], stopping at the first exception. *)
Fixpoint rfold {A B} (body : A -> B -> result B) (xs : list A) (acc : B) : result B :=
  match xs with
  | [] => Ok acc
  | x :: xs' => rbind (body x acc) (rfold body xs')
  end.

(* ================================================================== *)
(** ** OpenCV, as far as [detect_objects] uses it *)

(** An HSV image is a grid of pixels, a mask a grid of bytes (0 or 255). *)
Definition pixel : Type := (Z * Z * Z)%type.
Definition hsv_image : Type := list (list pixel).
Definition mask : Type := list (list Z).

(** The entries [m00], [m10], [m01] of the dictionary [cv2.moments] builds. *)
Record Moments : Type := mkMoments { m00 : Q; m10 : Q; m01 : Q }.

(** The calls whose result depends on OpenCV's algorithms are an interface;
    each of them may raise. *)
Class OpenCV : Type := {
  image : Type;
  contour : Type;
  (** [cv2.imread(path)]: the decoded image, or [None]. *)
  imread : string -> result (option image);
  (** [cv2.cvtColor(image, cv2.COLOR_BGR2HSV)]. *)
  cvtColor_BGR2HSV : image -> result hsv_image;
  (** [cv2.findContours(mask, cv2.RETR_EXTERNAL, cv2.CHAIN_APPROX_SIMPLE)],
      its first component. *)
  findContours : mask -> result (list contour);
  (** [cv2.contourArea(cnt)]. *)
  contourArea : contour -> result Q;
  (** [cv2.arcLength(cnt, True)]. *)
  arcLength : contour -> result Q;
  (** [cv2.approxPolyDP(cnt, epsilon, True)]: the vertices kept. *)
  approxPolyDP : contour -> Q -> result (list (Z * Z));
  (** [cv2.moments(cnt)]. *)
  moments : contour -> result Moments
}.

Module Cv2.

Definition in_closed (lo hi x : Z) : bool := (lo <=? x)%Z && (x <=? hi)%Z.

(** [cv2.inRange(hsv, lower, upper)]: 255 where every channel lies in its
    closed range, 0 elsewhere. *)
Definition inRange_pixel (lower upper : pixel) (p : pixel) : Z :=
  let '(h, s, v) := p in
  let '(lh, ls, lv) := lower in
  let '(uh, us, uv) := upper in
  if in_closed lh uh h && in_closed ls us s && in_closed lv uv v
  then 255%Z else 0%Z.

Definition inRange (hsv : hsv_image) (lower upper : pixel) : mask :=
  map (map (inRange_pixel lower upper)) hsv.

Fixpoint zip_with {A B C} (f : A -> B -> C) (xs : list A) (ys : list B) : list C :=
  match xs, ys with
  | x :: xs', y :: ys' => f x y :: zip_with f xs' ys'
  | _, _ => []
  end.

(** [cv2.bitwise_or(a, b)] on two masks of one shape. *)
Definition bitwise_or (a b : mask) : mask := zip_with (zip_with Z.lor) a b.

End Cv2.

(* ================================================================== *)
(** ** classic_agent.py: the scene detector *)

(** [COLOR_BOUNDS], in the order the dictionary literal inserts its keys. *)
Definition COLOR_BOUNDS : list (string * (pixel * pixel)) :=
  [ ("red",    ((0, 120, 70),   (10, 255, 255)));
    ("red2",   ((170, 120, 70), (180, 255, 255)));
    ("green",  ((35, 100, 100), (85, 255, 255)));
    ("blue",   ((100, 150, 0),  (140, 255, 255)));
    ("yellow", ((20, 100, 100), (30, 255, 255)));
    ("gray",   ((0, 0, 40),     (180, 50, 220))) ]%Z.

(** [d[key]] on a dictionary kept as an association list. *)
Fixpoint getitem {V} (d : list (string * V)) (key : string) : result V :=
  match d with
  | [] => Raise (KeyError key)
  | (k, v) :: d' => if String.eqb k key then Ok v else getitem d' key
  end.

(** One detected object: [{'color': .., 'shape': .., 'coords': (cX, cY)}]. *)
Record fact : Type := mkFact {
  color : string;
  shape : string;
  coords : Z * Z
}.

Section Detector.
Context {cv : OpenCV}.
Local Open Scope py_scope.

(** The body of [for cnt in contours], on the list [detected_objects]. *)
Definition detect_contour (color : string) (cnt : contour)
    (detected_objects : list fact) : result (list fact) :=
  area <~ contourArea cnt ;;
  if PyNum.lt area 100 then Ok detected_objects
  else
    peri <~ arcLength cnt ;;
    approx <~ approxPolyDP cnt ((4 # 100) * peri)%Q ;;
    let shape := if (List.length approx =? 4)%nat then "square" else "circle" in
    M <~ moments cnt ;;
    if Qeq_bool (m00 M) 0 then Ok detected_objects
    else
      qx <~ PyNum.truediv (m10 M) (m00 M) ;;
      let cX := PyNum.int qx in
      qy <~ PyNum.truediv (m01 M) (m00 M) ;;
      let cY := PyNum.int qy in
      Ok (detected_objects ++ [mkFact color shape (cX, cY)])%list.

(** The rest of the body of the loop over colours, once the mask and the
    label are settled: the contours of the mask, each through
    [detect_contour]. *)
Definition detect_mask (color : string) (mask : mask)
    (detected_objects : list fact) : result (list fact) :=
  contours <~ findContours mask ;;
  rfold (detect_contour color) contours detected_objects.

(** The body of [for color, (lower, upper) in COLOR_BOUNDS.items()]. *)
Definition detect_color (hsv : hsv_image) (item : string * (pixel * pixel))
    (detected_objects : list fact) : result (list fact) :=
  let '(color, (lower, upper)) := item in
  let mask := Cv2.inRange hsv lower upper in
  if String.eqb color "red2" then
    red <~ getitem COLOR_BOUNDS "red" ;;
    let red_mask_1 := Cv2.inRange hsv (fst red) (snd red) in
    let mask := Cv2.bitwise_or mask red_mask_1 in
    let color := "red" in
    detect_mask color mask detected_objects
  else if String.eqb color "red" then
    Ok detected_objects
  else
    detect_mask color mask detected_objects.

Definition detect_objects {W} (image_path : string) : M W (list fact) :=
  try_except
    (image <- lift (imread image_path) ;;
     match image with
     | None =>
         logging WARNING (CouldNotRead image_path) ;;
         ret []
     | Some image =>
         hsv <- lift (cvtColor_BGR2HSV image) ;;
         lift (rfold (detect_color hsv) COLOR_BOUNDS [])
     end)
    (fun e =>
       logging ERROR (DetectionError image_path e) ;;
       ret []).

End Detector.

(* ================================================================== *)
(** ** llm_judge.py *)

Import PyStr.

(** [JUDGE_PROMPT_TEMPLATE.format(question=.., ground_truth=.., model_answer=..)]. *)
Definition JUDGE_PROMPT_TEMPLATE (question ground_truth model_answer : string) : string :=
  nl ++
  "You are an expert evaluator for a Visual Question Answering task." ++
  nl ++ "Your goal is to determine if the " ++ dq ++ "Model's Answer" ++
  dq ++ " correctly and concisely answers the " ++ dq ++ "Question" ++ dq ++
  " based on the " ++ dq ++ "Ground Truth Answer" ++ dq ++ "." ++ nl ++ nl ++
  "The answer must be semantically equivalent, even if phrased differently." ++
  nl ++ "For " ++ dq ++ "Is the..." ++ dq ++
  " questions, the answer must match (e.G., " ++ dq ++ "left" ++ dq ++
  " matches " ++ dq ++ "on the left" ++ dq ++ ")." ++ nl ++ "For " ++ dq ++
  "What is the shape..." ++ dq ++
  " questions, the answer must be the shape (e.g., " ++ dq ++ "square" ++
  dq ++ " matches " ++ dq ++ "a red square" ++ dq ++ ")." ++ nl ++ "For " ++
  dq ++ "What is the color..." ++ dq ++
  " questions, the answer must be the color (e.g., " ++ dq ++ "red" ++ dq ++
  " matches " ++ dq ++ "the red one" ++ dq ++ ")." ++ nl ++ nl ++
  "Respond with only " ++ dq ++ "Yes" ++ dq ++ " or " ++ dq ++ "No" ++ dq ++
  ". Do not provide any explanation." ++ nl ++ nl ++ "---" ++ nl ++
  "Question: " ++ dq ++ question ++ dq ++ nl ++ "Ground Truth Answer: " ++
  dq ++ ground_truth ++ dq ++ nl ++ "Model's Answer: " ++ dq ++
  model_answer ++ dq ++ nl ++ "---" ++ nl ++ nl ++
  "Is the Model's Answer correct?" ++ nl.

Section Judge.
Context {W : Type}.
Local Open Scope py_scope.

Definition judge_answer (vlm : VLM W) (question model_answer ground_truth : string)
    : M W Z :=
  let prompt := JUDGE_PROMPT_TEMPLATE question ground_truth model_answer in
  try_except
    (response <- call_inference vlm prompt None (Some 5%nat) ;;
     if negb (truthy response) then
       logging WARNING JudgeNoResponse ;;
       ret 0%Z
     else
       response_0 <- lift (item0 response) ;;
       let decision := lower (strip response_0) in
       if Re.search_word "yes" decision then ret 1%Z
       else if Re.search_word "no" decision then ret 0%Z
       else
         logging WARNING (JudgeAmbiguous response_0) ;;
         ret 0%Z)
    (fun e =>
       logging ERROR (JudgeError e) ;;
       ret 0%Z).

End Judge.

(* ================================================================== *)
(** ** The dataset and the three drivers *)

(** A dataset row, with the columns the drivers read. *)
Record row : Type := mkRow {
  question : string;
  answer : string;
  image_path : string
}.

(** [dataset.iterrows()]: the rows with their index, in order. *)
Definition iterrows (dataset : list row) : list (nat * row) :=
  combine (seq 0 (List.length dataset)) dataset.

(** [sum(scores) / len(scores) if scores else 0]. *)
Definition accuracy_of (scores : list Z) : result Q :=
  match scores with
  | [] => Ok 0%Q
  | _ :: _ =>
      PyNum.truediv (inject_Z (PyNum.sum scores))
                    (inject_Z (Z.of_nat (List.length scores)))
  end.

Section Drivers.
Context {W : Type} {cv : OpenCV}.
Local Open Scope py_scope.

(** *** zero_shot.py *)

(** The body of the loop of [run_zero_shot]. *)
Definition zero_shot_row (vlm judge_vlm : VLM W) (it : nat * row) : M W unit :=
  let '(index, row) := it in
  let question := question row in
  let ground_truth := answer row in
  let image_path := image_path row in
  model_answer_list <- call_inference vlm question (Some image_path) None ;;
  model_answer <-
    (if negb (truthy model_answer_list) then
       logging WARNING (NoAnswer index) ;;
       ret EmptyString
     else lift (item0 model_answer_list)) ;;
  predictions_append model_answer ;;
  score <- judge_answer judge_vlm question model_answer ground_truth ;;
  scores_append score.

Definition run_zero_shot (vlm : VLM W) (dataset : list row) (judge_vlm : VLM W)
    : M W (Q * list string) :=
  logging INFO (Starting ZeroShot) ;;
  set_predictions [] ;;
  set_scores [] ;;
  try_except
    (for_each (iterrows dataset) (zero_shot_row vlm judge_vlm) ;;
     scores <- get_scores ;;
     accuracy <- lift (accuracy_of scores) ;;
     logging INFO (Complete ZeroShot accuracy) ;;
     predictions <- get_predictions ;;
     ret (accuracy, predictions))
    (fun e =>
       logging ERROR (LoopError ZeroShot e) ;;
       predictions <- get_predictions ;;
       ret (0%Q, predictions)).

(** *** classic_agent.py: the driver *)

(** [str(coords)] for a pair of integers. *)
Definition str_of_coords (c : Z * Z) : string :=
  "(" ++ str_of_int (fst c) ++ ", " ++ str_of_int (snd c) ++ ")".

(** The text built from the detected objects. *)
Definition scene_context_of (objects : list fact) : string :=
  match objects with
  | [] => "Scene Context: No objects were detected by the CV system."
  | _ :: _ =>
      fold_left
        (fun scene_context obj =>
           scene_context ++ "- A " ++ color obj ++ " " ++ shape obj
           ++ " at coordinates " ++ str_of_coords (coords obj) ++ nl)
        objects
        ("Scene Context: The following objects were detected:" ++ nl)
  end.

(** The body of the loop of [run_classic_agent_pipeline]. *)
Definition classic_agent_row (vlm judge_vlm : VLM W) (it : nat * row) : M W unit :=
  let '(index, row) := it in
  let question := question row in
  let ground_truth := answer row in
  let image_path := image_path row in
  objects <- detect_objects image_path ;;
  let scene_context := scene_context_of objects in
  let enhanced_prompt :=
    scene_context ++ nl
    ++ "Based *only* on the scene context provided above, answer the following question." ++ nl
    ++ "Question: " ++ question in
  model_answer_list <- call_inference vlm enhanced_prompt (Some image_path) None ;;
  model_answer <-
    (if truthy model_answer_list then lift (item0 model_answer_list)
     else ret EmptyString) ;;
  predictions_append model_answer ;;
  score <- judge_answer judge_vlm question model_answer ground_truth ;;
  scores_append score.

Definition run_classic_agent_pipeline (vlm : VLM W) (dataset : list row)
    (judge_vlm : VLM W) : M W (Q * list string) :=
  logging INFO (Starting ClassicAgent) ;;
  set_predictions [] ;;
  set_scores [] ;;
  try_except
    (for_each (iterrows dataset) (classic_agent_row vlm judge_vlm) ;;
     scores <- get_scores ;;
     accuracy <- lift (accuracy_of scores) ;;
     logging INFO (Complete ClassicAgent accuracy) ;;
     predictions <- get_predictions ;;
     ret (accuracy, predictions))
    (fun e =>
       logging ERROR (LoopError ClassicAgent e) ;;
       predictions <- get_predictions ;;
       ret (0%Q, predictions)).

(** *** dl_agent.py *)

Definition plan_prompt_of (question : string) : string :=
  "To answer the question '" ++ question ++ "', "
  ++ "what is the step-by-step reasoning plan I should follow? "
  ++ "List the steps.".

Definition extract_prompt : string :=
  "Describe all objects in the image in detail. For each object, "
  ++ "list its color, its shape, and its relative position (e.g., top-left, bottom-right).".

Definition final_prompt_of (question plan context : string) : string :=
  "You are a reasoning agent. Use the following information to answer the question." ++ nl ++ nl
  ++ "Original Question: " ++ question ++ nl ++ nl
  ++ "Reasoning Plan:" ++ nl ++ plan ++ nl ++ nl
  ++ "Image Context:" ++ nl ++ context ++ nl ++ nl
  ++ "Based on the plan and context, what is the final, concise answer to the original question?".

(** [xs[0] if xs else default]. *)
Definition first_or (xs : response) (default : string) : M W string :=
  if truthy xs then lift (item0 xs) else ret default.

(** The third step of the loop body and the judging: from the final prompt
    to the two appends. *)
Definition dl_agent_synthesize (vlm judge_vlm : VLM W)
    (question ground_truth image_path plan context : string) : M W unit :=
  let final_prompt := final_prompt_of question plan context in
  model_answer_list <- call_inference vlm final_prompt (Some image_path) None ;;
  model_answer <- first_or model_answer_list EmptyString ;;
  predictions_append model_answer ;;
  score <- judge_answer judge_vlm question model_answer ground_truth ;;
  scores_append score.

(** The body of the loop of [run_dl_agent_pipeline]. *)
Definition dl_agent_row (vlm judge_vlm : VLM W) (it : nat * row) : M W unit :=
  let '(index, row) := it in
  let question := question row in
  let ground_truth := answer row in
  let image_path := image_path row in
  let plan_prompt := plan_prompt_of question in
  plan_list <- call_inference vlm plan_prompt (Some image_path) (Some 100%nat) ;;
  plan <- first_or plan_list "No plan generated." ;;
  context_list <- call_inference vlm extract_prompt (Some image_path) (Some 150%nat) ;;
  context <- first_or context_list "No context extracted." ;;
  dl_agent_synthesize vlm judge_vlm question ground_truth image_path plan context.

Definition run_dl_agent_pipeline (vlm : VLM W) (dataset : list row)
    (judge_vlm : VLM W) : M W (Q * list string) :=
  logging INFO (Starting DLAgent) ;;
  set_predictions [] ;;
  set_scores [] ;;
  try_except
    (for_each (iterrows dataset) (dl_agent_row vlm judge_vlm) ;;
     scores <- get_scores ;;
     accuracy <- lift (accuracy_of scores) ;;
     logging INFO (Complete DLAgent accuracy) ;;
     predictions <- get_predictions ;;
     ret (accuracy, predictions))
    (fun e =>
       logging ERROR (LoopError DLAgent e) ;;
       predictions <- get_predictions ;;
       ret (0%Q, predictions)).

End Drivers.

(* ================================================================== *)
(** ** Notions the statements use *)

Section Notions.
Context {W : Type} {cv : OpenCV}.
Local Open Scope py_scope.

(** The state a driver enters its [try] block with: the start line is
    logged and both lists are fresh. *)
Definition entered (p : pipeline) (s : state W) : state W :=
  mkState (world s) (log s ++ [(INFO, Starting p)]) [] [].

(** The shape the three drivers share, over the loop body. *)
Definition run_driver (p : pipeline) (body : nat * row -> M W unit)
    (dataset : list row) : M W (Q * list string) :=
  logging INFO (Starting p) ;;
  set_predictions [] ;;
  set_scores [] ;;
  try_except
    (for_each (iterrows dataset) body ;;
     scores <- get_scores ;;
     accuracy <- lift (accuracy_of scores) ;;
     logging INFO (Complete p accuracy) ;;
     predictions <- get_predictions ;;
     ret (accuracy, predictions))
    (fun e =>
       logging ERROR (LoopError p e) ;;
       predictions <- get_predictions ;;
       ret (0%Q, predictions)).

(** The drivers with their tag and their loop body. *)
Definition driver : Type :=
  (pipeline
   * (VLM W -> list row -> VLM W -> M W (Q * list string))
   * (VLM W -> VLM W -> nat * row -> M W unit))%type.

Definition drivers : list driver :=
  [ (ZeroShot, run_zero_shot, zero_shot_row);
    (ClassicAgent, run_classic_agent_pipeline, classic_agent_row);
    (DLAgent, run_dl_agent_pipeline, dl_agent_row) ].

(** How many iterations of [for x in xs: body x] run to their end before
    the loop stops. *)
Fixpoint completed {A} (xs : list A) (body : A -> M W unit) (s : state W) : nat :=
  match xs with
  | [] => 0
  | x :: xs' =>
      match body x s with
      | (Ok _, s') => S (completed xs' body s')
      | (Raise _, _) => 0
      end
  end.

(** The rows of [iterrows], when the first index is [start]. *)
Definition iterrows_from (start : nat) (dataset : list row) : list (nat * row) :=
  combine (seq start (List.length dataset)) dataset.

End Notions.

(** The number of rows scored 1. *)
Definition count_correct (scores : list Z) : nat := count_occ Z.eq_dec scores 1%Z.

(** The text a step goes on with: the first completion, or the placeholder
    when the response is [None] or has no completion. *)
Definition text_or (r : response) (placeholder : string) : string :=
  match r with
  | PyList (c :: _) => c
  | _ => placeholder
  end.

(** The label of the shape, from the vertices of the approximation. *)
Definition shape_of (approx : list (Z * Z)) : string :=
  if (List.length approx =? 4)%nat then "square" else "circle".

(** The red mask as the specification words it: the two ranges, combined. *)
Definition red_mask (hsv : hsv_image) : mask :=
  Cv2.bitwise_or (Cv2.inRange hsv (170, 120, 70)%Z (180, 255, 255)%Z)
                 (Cv2.inRange hsv (0, 120, 70)%Z (10, 255, 255)%Z).

(** A pixel is in the lower or in the upper red range. *)
Definition in_red1 (p : pixel) : bool :=
  let '(h, s, v) := p in
  Cv2.in_closed 0 10 h && Cv2.in_closed 120 255 s && Cv2.in_closed 70 255 v.

Definition in_red2 (p : pixel) : bool :=
  let '(h, s, v) := p in
  Cv2.in_closed 170 180 h && Cv2.in_closed 120 255 s && Cv2.in_closed 70 255 v.

(** The labels a scene fact may carry. *)
Definition labels : list string := ["red"; "green"; "blue"; "yellow"; "gray"].

(** *** The judge, read off the outcome of its one inference call *)

(** The score [judge_answer] returns. *)
Definition verdict (r : result response) : Z :=
  match r with
  | Ok (PyList (c :: _)) =>
      if Re.search_word "yes" (lower (strip c)) then 1%Z else 0%Z
  | _ => 0%Z
  end.

(** The lines [judge_answer] logs. *)
Definition judge_log (r : result response) : list (level * message) :=
  match r with
  | Raise e => [(ERROR, JudgeError e)]
  | Ok (PyList (c :: _)) =>
      if Re.search_word "yes" (lower (strip c)) then []
      else if Re.search_word "no" (lower (strip c)) then []
      else [(WARNING, JudgeAmbiguous c)]
  | Ok _ => [(WARNING, JudgeNoResponse)]
  end.

(** *** The detector, read off the outcome of its [try] block *)

Section DetectorNotions.
Context {cv : OpenCV}.
Local Open Scope py_scope.

(** The [try] block of [detect_objects] without its logging: the facts, or
    [None] when the image could not be read. *)
Definition detection (image_path : string) : result (option (list fact)) :=
  image <~ imread image_path ;;
  match image with
  | None => Ok None
  | Some image =>
      hsv <~ cvtColor_BGR2HSV image ;;
      facts <~ rfold (detect_color hsv) COLOR_BOUNDS [] ;;
      Ok (Some facts)
  end.

Definition detected (image_path : string) : list fact :=
  match detection image_path with
  | Ok (Some facts) => facts
  | _ => []
  end.

Definition detect_log (image_path : string) : list (level * message) :=
  match detection image_path with
  | Ok (Some _) => []
  | Ok None => [(WARNING, CouldNotRead image_path)]
  | Raise e => [(ERROR, DetectionError image_path e)]
  end.

(** What one contour adds to the list of detected objects. *)
Definition emitted (color : string) (cnt : contour) : result (list fact) :=
  detect_contour color cnt [].

End DetectorNotions.

(** *** The loop of a driver *)

Definition binary (sc : Z) : Prop := (sc = 0 \/ sc = 1)%Z.

(** A computation that leaves the two lists of the driver alone. *)
Definition keeps_lists {W A} (m : M W A) : Prop :=
  forall s,
    predictions (snd (m s)) = predictions s /\ scores (snd (m s)) = scores s.

(** A computation that either runs to its end, having appended one
    prediction and one score of 0 or 1, or raises with both lists as it
    found them. *)
Definition appends_one {W} (m : M W unit) : Prop :=
  forall s,
    match m s with
    | (Ok _, s') =>
        exists a sc,
          predictions s' = (predictions s ++ [a])%list /\
          scores s' = (scores s ++ [sc])%list /\
          binary sc
    | (Raise _, s') =>
        predictions s' = predictions s /\ scores s' = scores s
    end.

Definition row_step {W} (body : nat * row -> M W unit) : Prop :=
  forall it, appends_one (body it).

(** The state with more lines in its log. *)
Definition logged {W} (s : state W) (entries : list (level * message)) : state W :=
  mkState (world s) (log s ++ entries) (predictions s) (scores s).

(** The state with another world. *)
Definition moved {W} (s : state W) (w : W) : state W :=
  mkState w (log s) (predictions s) (scores s).

(* ================================================================== *)
(** ** A scripted backend and a synthetic OpenCV, for the examples *)

Module Sample.

(** The world is the script: the outcomes of the calls to come, whichever
    model is asked.  An exhausted script answers with no completion. *)
Definition script : Type := list (result response).

Definition scripted : VLM script :=
  mkVLM (fun _ _ _ w =>
           match w with
           | [] => (Ok (PyList []), [])
           | r :: w' => (r, w')
           end).

Definition start (w : script) : state script := mkState w [] [] [].

Definition rows3 : list row :=
  [ mkRow "What color is the square?" "red" "scene.png";
    mkRow "What shape is on the left?" "circle" "missing.png";
    mkRow "Is the circle green?" "yes" "scene.png" ].

(** Rows 1 and 2 are answered and judged, the third inference call raises. *)
Definition down : exn := Error "backend unavailable".

Definition script_fail3 : script :=
  [ Ok (PyList ["red"]); Ok (PyList ["Yes"]);
    Ok (PyList ["a square"]); Ok (PyList ["No"]);
    Raise down ].

(** Every call answers: three rows, judged Yes, No, Yes. *)
Definition script_full : script :=
  [ Ok (PyList ["red"]); Ok (PyList ["Yes"]);
    Ok (PyList ["a square"]); Ok (PyList ["No"]);
    Ok (PyList ["yes it is"]); Ok (PyList [" yes, that's correct"]) ].

(** The third row, and the zero-shot loop on the first two rows under the
    failing script. *)
Definition row3 : row := mkRow "Is the circle green?" "yes" "scene.png".

Definition after_two : result unit * state script :=
  for_each (iterrows (firstn 2 rows3)) (zero_shot_row scripted scripted)
    (entered ZeroShot (start script_fail3)).

(** One pixel near hue 0, one near hue 180, one green, one gray. *)
Definition scene : hsv_image :=
  [ [ (3, 200, 200); (175, 200, 200); (60, 200, 200); (0, 0, 100) ] ]%Z.

(** A lit pixel of a mask stands for one blob; its column decides the area
    OpenCV reports (99, 101, 103, ...), its row the number of vertices, and
    the blob of column 3 has a zero area moment. *)
Fixpoint lit_from (x : Z) (y : Z) (r : list Z) : list (Z * Z) :=
  match r with
  | [] => []
  | v :: r' =>
      (if (v =? 0)%Z then [] else [(x, y)]) ++ lit_from (x + 1) y r'
  end.

Fixpoint blobs_from (y : Z) (m : mask) : list (Z * Z) :=
  match m with
  | [] => []
  | r :: m' => lit_from 0 y r ++ blobs_from (y + 1) m'
  end.

Definition blob_area (c : Z * Z) : Q := inject_Z (99 + 2 * fst c).

Definition cv : OpenCV := {|
  image := hsv_image;
  contour := (Z * Z)%type;
  imread := fun path =>
    if String.eqb path "scene.png" then Ok (Some scene)
    else if String.eqb path "broken.png" then Raise (Error "corrupt file")
    else Ok None;
  cvtColor_BGR2HSV := fun img => Ok img;
  findContours := fun m => Ok (blobs_from 0 m);
  contourArea := fun c => Ok (blob_area c);
  arcLength := fun _ => Ok (40 # 1);
  approxPolyDP := fun c _ =>
    Ok (if Z.even (snd c) then [(0, 0); (0, 1); (1, 1); (1, 0)]%Z
        else [(0, 0); (0, 1); (1, 2); (2, 2); (2, 1); (1, 0)]%Z);
  moments := fun c =>
    let a := if (fst c =? 3)%Z then 0%Q else blob_area c in
    Ok (mkMoments a (a * inject_Z (fst c)) (a * inject_Z (snd c)))
|}.

End Sample.

(* ================================================================== *)
(** ** Further notions *)

(** The masks the loop over [COLOR_BOUNDS] hands to [findContours], each
    with the label its facts get, in the order of the loop. *)
Definition effective_masks (hsv : hsv_image) : list (string * mask) :=
  [ ("red", red_mask hsv);
    ("green", Cv2.inRange hsv (35, 100, 100)%Z (85, 255, 255)%Z);
    ("blue", Cv2.inRange hsv (100, 150, 0)%Z (140, 255, 255)%Z);
    ("yellow", Cv2.inRange hsv (20, 100, 100)%Z (30, 255, 255)%Z);
    ("gray", Cv2.inRange hsv (0, 0, 40)%Z (180, 50, 220)%Z) ].

Section FurtherNotions.
Context {cv : OpenCV}.

(** The facts of one mask: what its contours emit, in the order
    [findContours] lists them. *)
Definition mask_facts (item : string * mask) (facts : list fact) : Prop :=
  exists cs news,
    findContours (snd item) = Ok cs /\
    Forall2 (fun cnt new => emitted (fst item) cnt = Ok new) cs news /\
    facts = List.concat news.

(** A fact that stems from the contour [cnt]: the contour is no noise, its
    area moment is not zero, and label, shape and centroid are read off
    it. *)
Definition stems_from (f : fact) (cnt : contour) : Prop :=
  exists area peri approx M,
    contourArea cnt = Ok area /\ (100 <= area)%Q /\
    arcLength cnt = Ok peri /\
    approxPolyDP cnt ((4 # 100) * peri)%Q = Ok approx /\
    moments cnt = Ok M /\ ~ (m00 M == 0)%Q /\
    shape f = (if (List.length approx =? 4)%nat then "square" else "circle") /\
    coords f = (PyNum.int (m10 M / m00 M), PyNum.int (m01 M / m00 M)).

End FurtherNotions.

(** The line of the scene context for one object. *)
Definition fact_line (obj : fact) : string :=
  "- A " ++ color obj ++ " " ++ shape obj
  ++ " at coordinates " ++ str_of_coords (coords obj) ++ nl.

(** The prompt of the classic agent, from the scene context on. *)
Definition enhanced_prompt_of (scene_context question : string) : string :=
  scene_context ++ nl
  ++ "Based *only* on the scene context provided above, answer the following question." ++ nl
  ++ "Question: " ++ question.

(** A string of white space only. *)
Fixpoint blank (s : string) : bool :=
  match s with
  | EmptyString => true
  | String c s' => isspace c && blank s'
  end.

(** The lines of the scene context, one per object, in order. *)
Definition lines_of (objects : list fact) : string :=
  fold_right (fun obj rest => fact_line obj ++ rest) EmptyString objects.

(** A string that does not begin with white space. *)
Definition trimmed_left (s : string) : Prop :=
  match s with
  | EmptyString => True
  | String c _ => isspace c = false
  end.

(** A computation that never raises. *)
Definition returns {W A} (m : M W A) : Prop :=
  forall s, exists a s', m s = (Ok a, s').

(** A string of word characters only. *)
Fixpoint all_word (s : string) : bool :=
  match s with
  | EmptyString => true
  | String c s' => isword c && all_word s'
  end.

(** A model whose [inference] returns on every call. *)
Definition always_answers {W} (vlm : VLM W) : Prop :=
  forall prompt img tokens w,
    exists resp w', inference vlm prompt img tokens w = (Ok resp, w').

Module SampleMore.

(** A model under test that answers every call with one completion and
    leaves the script to the judge. *)
Definition steady : VLM Sample.script :=
  mkVLM (fun _ _ _ w => (Ok (PyList ["red"]), w)).

(** A judge script of three verdicts. *)
Definition verdicts : Sample.script :=
  [ Ok (PyList ["Yes"]); Raise Sample.down; Ok (PyList ["NO."]) ].

End SampleMore.

(* ================================================================== *)
(** * Properties *)

(** ** Strings and the word search *)

Example strip_example : strip "  yes, that's correct " = "yes, that's correct".
Proof. reflexivity. Qed.

Example str_of_int_examples :
  str_of_int 0 = "0" /\ str_of_int 12 = "12" /\ str_of_int (-3) = "-3".
Proof. repeat split. Qed.

Module ReFacts.
Import Re.

Lemma strip_prefix_app lit rest : strip_prefix lit (lit ++ rest) = Some rest.
Proof.
  induction lit as [|a lit IH]; simpl.
  - reflexivity.
  - now rewrite Ascii.eqb_refl.
Qed.

Lemma strip_prefix_inv lit : forall s rest,
  strip_prefix lit s = Some rest -> s = lit ++ rest.
Proof.
  induction lit as [|a lit IH]; simpl; intros s rest H.
  - now inversion H.
  - destruct s as [|b s]; [discriminate|].
    destruct (Ascii.eqb a b) eqn:E; [|discriminate].
    apply Ascii.eqb_eq in E. subst b. f_equal. now apply IH.
Qed.

Lemma first_app_nonempty a lit rest :
  first (String a lit ++ rest) = Some a.
Proof. reflexivity. Qed.

Lemma match_here_spec lit prev s :
  word_literal lit ->
  match_here lit prev s = true <->
  exists post, s = lit ++ post /\ wordy prev = false /\ wordy (first post) = false.
Proof.
  intros [Hf Hl]. unfold match_here, boundary. split.
  - intros H. apply andb_true_iff in H. destruct H as [H1 H2].
    destruct (strip_prefix lit s) as [rest|] eqn:E; [|discriminate].
    apply strip_prefix_inv in E. subst s. exists rest.
    destruct lit as [|a lit]; [discriminate|].
    rewrite first_app_nonempty in H1. simpl in Hf.
    change (wordy (Some a)) with (isword a) in H1. rewrite Hf in H1.
    rewrite (Hl prev) in H2.
    repeat split.
    + now destruct (wordy prev).
    + now destruct (wordy (first rest)).
  - intros (post & -> & Hp & Hq).
    rewrite strip_prefix_app, (Hl prev), Hq, Hp.
    destruct lit as [|a lit]; [discriminate|].
    rewrite first_app_nonempty. simpl in Hf.
    change (wordy (Some a)) with (isword a). now rewrite Hf.
Qed.

Lemma search_from_spec lit :
  word_literal lit ->
  forall s prev,
    search_from lit prev s = true <->
    exists pre post,
      s = pre ++ lit ++ post /\
      wordy (last prev pre) = false /\ wordy (first post) = false.
Proof.
  intros Hw s. induction s as [|c s IH]; intros prev; simpl search_from.
  - rewrite orb_false_r, (match_here_spec _ _ _ Hw). split.
    + intros (post & E & Hp & Hq). exists EmptyString, post. now repeat split.
    + intros (pre & post & E & Hp & Hq).
      destruct pre as [|c pre]; [|discriminate].
      exists post. now repeat split.
  - rewrite orb_true_iff, (match_here_spec _ _ _ Hw), IH. split.
    + intros [(post & E & Hp & Hq) | (pre & post & E & Hp & Hq)].
      * exists EmptyString, post. now repeat split.
      * exists (String c pre), post. simpl. rewrite E. now repeat split.
    + intros (pre & post & E & Hp & Hq).
      destruct pre as [|c' pre].
      * left. exists post. now repeat split.
      * right. simpl in E. inversion E; subst. exists pre, post.
        now repeat split.
Qed.

Lemma word_literal_yes : word_literal "yes".
Proof. split; [reflexivity | intros p; reflexivity]. Qed.

Lemma word_literal_no : word_literal "no".
Proof. split; [reflexivity | intros p; reflexivity]. Qed.

(** The search the judge runs finds exactly the standalone occurrences. *)
Lemma search_word_standalone lit s :
  word_literal lit -> search_word lit s = true <-> standalone lit s.
Proof. intros Hw. unfold search_word, standalone. now apply search_from_spec. Qed.

Lemma search_word_false lit s :
  word_literal lit -> search_word lit s = false <-> ~ standalone lit s.
Proof.
  intros Hw. rewrite <- (search_word_standalone lit s Hw).
  destruct (search_word lit s); split; intros H; try easy.
Qed.

End ReFacts.

(** ** The interpreter *)

Arguments JUDGE_PROMPT_TEMPLATE : simpl never.

Section InterpFacts.
Context {W : Type}.

Lemma logged_nil (s : state W) : logged s [] = s.
Proof. destruct s; unfold logged; simpl. now rewrite app_nil_r. Qed.

Lemma for_each_app {A} (xs ys : list A) (body : A -> M W unit) s :
  for_each (xs ++ ys) body s =
  match for_each xs body s with
  | (Ok _, s') => for_each ys body s'
  | (Raise e, s') => (Raise e, s')
  end.
Proof.
  revert s. induction xs as [|x xs IH]; intros s; simpl.
  - reflexivity.
  - unfold bind. destruct (body x s) as [[[]|e] s1]; [apply IH | reflexivity].
Qed.

Lemma completed_app {A} (xs ys : list A) (body : A -> M W unit) s :
  completed (xs ++ ys) body s =
  match for_each xs body s with
  | (Ok _, s') => (List.length xs + completed ys body s')%nat
  | (Raise _, _) => completed xs body s
  end.
Proof.
  revert s. induction xs as [|x xs IH]; intros s; simpl.
  - reflexivity.
  - unfold bind. destruct (body x s) as [[[]|e] s1]; [|reflexivity].
    rewrite IH. destruct (for_each xs body s1) as [[[]|e] s2]; reflexivity.
Qed.

End InterpFacts.

(** ** The judge *)

Section JudgeFacts.
Context {W : Type}.

(** [judge_answer] makes one inference call and always returns: its score
    and its log lines are functions of the outcome of that call. *)
Lemma judge_answer_eq (vlm : VLM W) q a g s :
  judge_answer vlm q a g s =
  let (r, w) := inference vlm (JUDGE_PROMPT_TEMPLATE q g a) None (Some 5%nat) (world s) in
  (Ok (verdict r), logged (moved s w) (judge_log r)).
Proof.
  unfold judge_answer, try_except, bind, call_inference, logging, ret, lift.
  destruct (inference vlm _ None (Some 5%nat) (world s)) as [[resp|e] w]; simpl.
  - destruct resp as [|[|c rest]]; simpl; try reflexivity.
    destruct (Re.search_word "yes" (lower (strip c))); simpl.
    + now rewrite logged_nil.
    + destruct (Re.search_word "no" (lower (strip c))); simpl.
      * now rewrite logged_nil.
      * reflexivity.
  - reflexivity.
Qed.

Lemma verdict_binary r : binary (verdict r).
Proof.
  unfold binary, verdict. destruct r as [[|[|c l]]|e]; auto.
  destruct (Re.search_word "yes" (lower (strip c))); auto.
Qed.

End JudgeFacts.

(** ** The detector *)

Section DetectorFacts.
Context {cv : OpenCV}.

Lemma rbind_ok {A B} (r : result A) (k : A -> result B) b :
  rbind r k = Ok b -> exists a, r = Ok a /\ k a = Ok b.
Proof. destruct r as [a|e]; simpl; [eauto | discriminate]. Qed.

(** [detect_objects] always returns, touches nothing but the log, and both
    its result and its log lines are functions of the [try] block. *)
Lemma detect_objects_eq {W} image_path (s : state W) :
  detect_objects image_path s =
  (Ok (detected image_path), logged s (detect_log image_path)).
Proof.
  unfold detect_objects, detected, detect_log, detection,
    try_except, bind, lift, logging, ret, rbind.
  destruct (imread image_path) as [[img|]|e]; cbv beta iota; try reflexivity.
  destruct (cvtColor_BGR2HSV img) as [hsv|e]; cbv beta iota; try reflexivity.
  destruct (rfold (detect_color hsv) COLOR_BOUNDS []) as [facts|e];
    cbv beta iota; try reflexivity.
  now rewrite logged_nil.
Qed.

End DetectorFacts.

Section ContourFacts.
Context {cv : OpenCV}.

Lemma lt_spec a b : PyNum.lt a b = true <-> (a < b)%Q.
Proof.
  unfold PyNum.lt. rewrite negb_true_iff. split.
  - intros H. apply Qnot_le_lt. intros L. apply Qle_bool_iff in L. congruence.
  - intros H. destruct (Qle_bool b a) eqn:E; [|reflexivity].
    apply Qle_bool_iff in E. exfalso. now apply (Qlt_not_le a b).
Qed.

Lemma lt_false a b : PyNum.lt a b = false <-> (b <= a)%Q.
Proof.
  unfold PyNum.lt. rewrite negb_false_iff. apply Qle_bool_iff.
Qed.

Lemma truediv_nonzero a b :
  Qeq_bool b 0 = false -> PyNum.truediv a b = Ok (a / b)%Q.
Proof. intros H. unfold PyNum.truediv. now rewrite H. Qed.

(** The outcome of the loop body on one contour, case by case: it adds
    nothing, or it adds one fact whose centroid is the quotient of the
    moments by a non-zero [m00], or one of the OpenCV calls raised. *)
Lemma emitted_cases color cnt :
  match emitted color cnt with
  | Ok new =>
      (new = [] /\
       ((exists area, contourArea cnt = Ok area /\ (area < 100)%Q) \/
        (exists area M, contourArea cnt = Ok area /\ (100 <= area)%Q /\
                        moments cnt = Ok M /\ (m00 M == 0)%Q)))
      \/
      (exists area peri approx M,
         contourArea cnt = Ok area /\ (100 <= area)%Q /\
         arcLength cnt = Ok peri /\
         approxPolyDP cnt ((4 # 100) * peri)%Q = Ok approx /\
         moments cnt = Ok M /\ ~ (m00 M == 0)%Q /\
         new = [mkFact color (shape_of approx)
                  (PyNum.int (m10 M / m00 M), PyNum.int (m01 M / m00 M))])
  | Raise e =>
      contourArea cnt = Raise e \/ arcLength cnt = Raise e \/
      (exists eps, approxPolyDP cnt eps = Raise e) \/ moments cnt = Raise e
  end.
Proof.
  unfold emitted, detect_contour, rbind.
  destruct (contourArea cnt) as [area|e] eqn:Ea; [|now left].
  destruct (PyNum.lt area 100) eqn:Elt.
  { left. split; [reflexivity|]. left. exists area. split; [reflexivity|].
    now apply lt_spec. }
  apply lt_false in Elt.
  destruct (arcLength cnt) as [peri|e] eqn:Ep; [|now right; left].
  destruct (approxPolyDP cnt _) as [approx|e] eqn:Eap;
    [|right; right; left; eauto].
  destruct (moments cnt) as [M|e] eqn:Em; [|now right; right; right].
  destruct (Qeq_bool (m00 M) 0) eqn:Ez.
  { left. split; [reflexivity|]. right. exists area, M.
    repeat split; trivial. now apply Qeq_bool_iff. }
  rewrite !truediv_nonzero by assumption.
  right. exists area, peri, approx, M. repeat split; trivial.
  intros Hz. apply Qeq_bool_iff in Hz. congruence.
Qed.

(** The loop body appends what [emitted] says to the list it is given. *)
Lemma detect_contour_acc color cnt acc :
  detect_contour color cnt acc =
  rbind (emitted color cnt) (fun new => Ok (acc ++ new)%list).
Proof.
  unfold emitted, detect_contour, rbind.
  destruct (contourArea cnt) as [area|e]; [|reflexivity].
  destruct (PyNum.lt area 100); [now rewrite app_nil_r|].
  destruct (arcLength cnt) as [peri|e]; [|reflexivity].
  destruct (approxPolyDP cnt _) as [approx|e]; [|reflexivity].
  destruct (moments cnt) as [M|e]; [|reflexivity].
  destruct (Qeq_bool (m00 M) 0); [now rewrite app_nil_r|].
  destruct (PyNum.truediv (m10 M) (m00 M)) as [qx|e]; [|reflexivity].
  destruct (PyNum.truediv (m01 M) (m00 M)) as [qy|e]; reflexivity.
Qed.

Lemma emitted_label label cnt new :
  emitted label cnt = Ok new ->
  (List.length new <= 1)%nat /\ Forall (fun f => color f = label) new.
Proof.
  intros E. pose proof (emitted_cases label cnt) as H. rewrite E in H.
  destruct H as [[-> _] | (area & peri & approx & M & _ & _ & _ & _ & _ & _ & ->)].
  - split; [simpl; lia | constructor].
  - split; [simpl; lia | repeat constructor].
Qed.

(** The loop over the contours of a mask: every contour contributes what
    [emitted] says, in order. *)
Lemma rfold_contours color cs : forall acc out,
  rfold (detect_contour color) cs acc = Ok out ->
  exists news,
    Forall2 (fun cnt new => emitted color cnt = Ok new) cs news /\
    out = (acc ++ List.concat news)%list.
Proof.
  induction cs as [|cnt cs IH]; simpl; intros acc out H.
  - inversion H; subst. exists []. split; [constructor | now rewrite app_nil_r].
  - apply rbind_ok in H. destruct H as (acc1 & H1 & H2).
    rewrite detect_contour_acc in H1. apply rbind_ok in H1.
    destruct H1 as (new & En & Eacc). inversion Eacc; subst acc1.
    destruct (IH _ _ H2) as (news & F & ->).
    exists (new :: news). split; [now constructor|].
    simpl. now rewrite app_assoc.
Qed.

Lemma detect_mask_spec color m acc out :
  detect_mask color m acc = Ok out ->
  exists cs news,
    findContours m = Ok cs /\
    Forall2 (fun cnt new => emitted color cnt = Ok new) cs news /\
    out = (acc ++ List.concat news)%list.
Proof.
  unfold detect_mask. intros H. apply rbind_ok in H.
  destruct H as (cs & Ec & H). apply rfold_contours in H.
  destruct H as (news & F & ->). now exists cs, news.
Qed.

Lemma concat_label label cs news :
  Forall2 (fun cnt new => emitted label cnt = Ok new) cs news ->
  Forall (fun f => color f = label) (List.concat news).
Proof.
  induction 1 as [|cnt new cs news E _ IH]; simpl; [constructor|].
  apply Forall_app. split; [now apply (emitted_label label cnt)|assumption].
Qed.

End ContourFacts.

Section MaskFacts.

Lemma zip_with_map {A B C D} (f : B -> C -> D) (g : A -> B) (h : A -> C) xs :
  Cv2.zip_with f (map g xs) (map h xs) = map (fun x => f (g x) (h x)) xs.
Proof. induction xs as [|x xs IH]; simpl; [reflexivity | now rewrite IH]. Qed.

Lemma red_pixel p :
  Z.lor (Cv2.inRange_pixel (170, 120, 70)%Z (180, 255, 255)%Z p)
        (Cv2.inRange_pixel (0, 120, 70)%Z (10, 255, 255)%Z p)
  = if in_red1 p || in_red2 p then 255%Z else 0%Z.
Proof.
  destruct p as [[h s] v]. unfold Cv2.inRange_pixel, in_red1, in_red2.
  destruct (Cv2.in_closed 170 180 h && Cv2.in_closed 120 255 s && Cv2.in_closed 70 255 v);
  destruct (Cv2.in_closed 0 10 h && Cv2.in_closed 120 255 s && Cv2.in_closed 70 255 v);
  reflexivity.
Qed.

(** The red mask, pixel by pixel. *)
Lemma red_mask_map hsv :
  red_mask hsv =
  map (map (fun p => if in_red1 p || in_red2 p then 255%Z else 0%Z)) hsv.
Proof.
  unfold red_mask, Cv2.bitwise_or, Cv2.inRange.
  rewrite zip_with_map. apply map_ext. intros r.
  rewrite zip_with_map. apply map_ext. intros p. apply red_pixel.
Qed.

Lemma filter_label_same l (xs : list fact) :
  Forall (fun f => color f = l) xs ->
  filter (fun f => String.eqb (color f) l) xs = xs.
Proof.
  induction 1 as [|f xs E _ IH]; simpl; [reflexivity|].
  rewrite E, String.eqb_refl. now f_equal.
Qed.

Lemma filter_label_other l l' (xs : list fact) :
  l' <> l ->
  Forall (fun f => color f = l') xs ->
  filter (fun f => String.eqb (color f) l) xs = [].
Proof.
  intros N. induction 1 as [|f xs E _ IH]; simpl; [reflexivity|].
  rewrite E. apply String.eqb_neq in N. now rewrite N.
Qed.

Lemma Forall_label_in l (xs : list fact) :
  In l labels ->
  Forall (fun f => color f = l) xs -> Forall (fun f => In (color f) labels) xs.
Proof.
  intros I H. apply Forall_impl with (2 := H). intros f E. now rewrite E.
Qed.

End MaskFacts.

Section LoopOverColours.
Context {cv : OpenCV}.

(** The loop over [COLOR_BOUNDS] handles five masks: the merged red one,
    then green, blue, yellow and gray, each through [detect_mask]. *)
Lemma colour_loop hsv facts :
  rfold (detect_color hsv) COLOR_BOUNDS [] = Ok facts ->
  exists r g b y k,
    detect_mask "red" (red_mask hsv) [] = Ok r /\
    detect_mask "green"
      (Cv2.inRange hsv (35, 100, 100)%Z (85, 255, 255)%Z) r = Ok g /\
    detect_mask "blue"
      (Cv2.inRange hsv (100, 150, 0)%Z (140, 255, 255)%Z) g = Ok b /\
    detect_mask "yellow"
      (Cv2.inRange hsv (20, 100, 100)%Z (30, 255, 255)%Z) b = Ok y /\
    detect_mask "gray"
      (Cv2.inRange hsv (0, 0, 40)%Z (180, 50, 220)%Z) y = Ok k /\
    facts = k.
Proof.
  intros H. cbn [rfold COLOR_BOUNDS] in H.
  cbv beta iota delta [detect_color] in H. cbn [String.eqb Ascii.eqb Bool.eqb] in H.
  cbn [getitem COLOR_BOUNDS String.eqb Ascii.eqb Bool.eqb rbind fst snd] in H.
  fold (red_mask hsv) in H.
  destruct (detect_mask "red" (red_mask hsv) []) as [r|] eqn:Er; [|discriminate].
  cbn [rbind] in H.
  destruct (detect_mask "green" _ r) as [g|] eqn:Eg; [|discriminate].
  cbn [rbind] in H.
  destruct (detect_mask "blue" _ g) as [b|] eqn:Eb; [|discriminate].
  cbn [rbind] in H.
  destruct (detect_mask "yellow" _ b) as [y|] eqn:Ey; [|discriminate].
  cbn [rbind] in H.
  destruct (detect_mask "gray" _ y) as [k|] eqn:Ek; [|discriminate].
  cbn [rbind] in H. inversion H; subst.
  exists r, g, b, y, facts. repeat split; assumption.
Qed.

End LoopOverColours.

(** ** The claims on the detector *)

Section DetectorClaims.
Context {cv : OpenCV}.

(** C4.  Whenever detection of a decodable image goes through, the pixels
    of either red range (hue near 0, hue near 180) make up one mask, the
    OR of the two range masks; its contours are extracted once and every
    one of them yields at most one fact, all labelled [red]: the facts
    labelled [red] in the result are exactly these, and no fact carries
    another label than red, green, blue, yellow or gray (so none is
    labelled [red2]). *)
Theorem red_ranges_merged image_path facts :
  detection image_path = Ok (Some facts) ->
  exists img hsv,
    imread image_path = Ok (Some img) /\
    cvtColor_BGR2HSV img = Ok hsv /\
    (forall W (s : state W), detect_objects image_path s = (Ok facts, s)) /\
    (forall i j r p,
        nth_error hsv i = Some r -> nth_error r j = Some p ->
        exists mr,
          nth_error (red_mask hsv) i = Some mr /\
          nth_error mr j = Some (if in_red1 p || in_red2 p then 255%Z else 0%Z)) /\
    (exists cs news,
        findContours (red_mask hsv) = Ok cs /\
        Forall2 (fun cnt new =>
                   emitted "red" cnt = Ok new /\ (List.length new <= 1)%nat)
                cs news /\
        filter (fun f => String.eqb (color f) "red") facts = List.concat news) /\
    Forall (fun f => In (color f) labels) facts.
Proof.
  intros D. pose proof D as D0. unfold detection, rbind in D.
  destruct (imread image_path) as [[img|]|e] eqn:Ei; try discriminate.
  destruct (cvtColor_BGR2HSV img) as [hsv|e] eqn:Eh; try discriminate.
  destruct (rfold (detect_color hsv) COLOR_BOUNDS []) as [fs|e] eqn:El;
    try discriminate.
  inversion D; subst fs. clear D.
  exists img, hsv. split; [reflexivity|]. split; [assumption|].
  split.
  { intros W s. rewrite detect_objects_eq. unfold detected, detect_log.
    rewrite D0. now rewrite logged_nil. }
  split.
  { intros i j r p Hr Hp. rewrite red_mask_map.
    eexists. split.
    - apply map_nth_error. exact Hr.
    - exact (map_nth_error
               (fun q => if in_red1 q || in_red2 q then 255%Z else 0%Z) _ _ Hp). }
  apply colour_loop in El.
  destruct El as (r & g & b & y & k & Er & Eg & Eb & Ey & Ek & ->).
  apply detect_mask_spec in Er, Eg, Eb, Ey, Ek.
  destruct Er as (cr & nr & Cr & Fr & ->).
  destruct Eg as (cg & ng & Cg & Fg & ->).
  destruct Eb as (cb & nb & Cb & Fb & ->).
  destruct Ey as (cy & ny & Cy & Fy & ->).
  destruct Ek as (ck & nk & Ck & Fk & ->).
  pose proof (concat_label _ _ _ Fr) as Lr.
  pose proof (concat_label _ _ _ Fg) as Lg.
  pose proof (concat_label _ _ _ Fb) as Lb.
  pose proof (concat_label _ _ _ Fy) as Ly.
  pose proof (concat_label _ _ _ Fk) as Lk.
  split.
  - exists cr, nr. split; [assumption|]. split.
    + apply Forall2_impl with (2 := Fr). intros cnt new E. split; [assumption|].
      now apply (emitted_label "red" cnt).
    + simpl. rewrite !filter_app.
      rewrite (filter_label_same "red" _ Lr).
      rewrite (filter_label_other "red" "green" _ ltac:(discriminate) Lg).
      rewrite (filter_label_other "red" "blue" _ ltac:(discriminate) Lb).
      rewrite (filter_label_other "red" "yellow" _ ltac:(discriminate) Ly).
      rewrite (filter_label_other "red" "gray" _ ltac:(discriminate) Lk).
      now rewrite !app_nil_r.
  - simpl. repeat (apply Forall_app; split).
    + apply (Forall_label_in "red"); [simpl; tauto | assumption].
    + apply (Forall_label_in "green"); [simpl; tauto | assumption].
    + apply (Forall_label_in "blue"); [simpl; tauto | assumption].
    + apply (Forall_label_in "yellow"); [simpl; tauto | assumption].
    + apply (Forall_label_in "gray"); [simpl; tauto | assumption].
Qed.

(** C6.  For every contour found in a colour mask, a fact is emitted only
    if the area of the contour is at least 100: a contour of area 99 adds
    nothing, and a contour of area 101 adds its fact (its area moment being
    non-zero, as OpenCV has it for a contour of non-zero area). *)
Theorem noise_threshold label m acc out :
  detect_mask label m acc = Ok out ->
  exists cs news,
    findContours m = Ok cs /\
    out = (acc ++ List.concat news)%list /\
    Forall2
      (fun cnt new =>
         emitted label cnt = Ok new /\
         (new <> [] -> exists area, contourArea cnt = Ok area /\ (100 <= area)%Q) /\
         (forall area, contourArea cnt = Ok area -> (area == 99)%Q -> new = []) /\
         (forall area M,
             contourArea cnt = Ok area -> (area == 101)%Q ->
             moments cnt = Ok M -> ~ (m00 M == 0)%Q ->
             exists f, new = [f] /\ color f = label))
      cs news.
Proof.
  intros H. apply detect_mask_spec in H. destruct H as (cs & news & C & F & ->).
  exists cs, news. split; [assumption|]. split; [reflexivity|].
  apply Forall2_impl with (2 := F). intros cnt new E.
  pose proof (emitted_cases label cnt) as K. rewrite E in K.
  split; [assumption|]. repeat split.
  - intros N.
    destruct K as [[-> _] | (area & peri & approx & M & Ea & Hge & _)];
      [now elim N | eauto].
  - intros area Ea H99.
    destruct K as [[-> _] | (area' & peri & approx & M & Ea' & Hge & _)];
      [reflexivity|].
    rewrite Ea in Ea'. inversion Ea'; subst area'. rewrite H99 in Hge.
    exfalso. revert Hge. unfold Qle; simpl; lia.
  - intros area M Ea H101 Em Hnz.
    destruct K as [[-> [(a1 & Ea1 & Hlt) | (a1 & M1 & Ea1 & _ & Em1 & Hz)]]
                  | (a1 & peri & approx & M1 & _ & _ & _ & _ & _ & _ & ->)].
    + rewrite Ea in Ea1. inversion Ea1; subst a1. rewrite H101 in Hlt.
      exfalso. revert Hlt. unfold Qlt; simpl; lia.
    + rewrite Em in Em1. inversion Em1; subst M1. now elim Hnz.
    + eexists. split; reflexivity.
Qed.

(** C9.  The loop body divides by [m00] only when [m00] is not zero: a
    contour whose [m00] is zero adds nothing, a fact that is added has the
    truncated quotients [m10/m00] and [m01/m00] as its centroid, with
    [m00 <> 0], and an exception of the loop body is one an OpenCV call
    raised, never one of the two divisions. *)
Theorem centroid_guard label cnt acc :
  (forall M out,
      moments cnt = Ok M -> (m00 M == 0)%Q ->
      detect_contour label cnt acc = Ok out -> out = acc) /\
  (forall out,
      detect_contour label cnt acc = Ok out ->
      out = acc \/
      exists M approx,
        moments cnt = Ok M /\ ~ (m00 M == 0)%Q /\
        PyNum.truediv (m10 M) (m00 M) = Ok (m10 M / m00 M)%Q /\
        PyNum.truediv (m01 M) (m00 M) = Ok (m01 M / m00 M)%Q /\
        out = (acc ++ [mkFact label (shape_of approx)
                         (PyNum.int (m10 M / m00 M),
                          PyNum.int (m01 M / m00 M))])%list) /\
  (forall e,
      detect_contour label cnt acc = Raise e ->
      contourArea cnt = Raise e \/ arcLength cnt = Raise e \/
      (exists eps, approxPolyDP cnt eps = Raise e) \/ moments cnt = Raise e).
Proof.
  rewrite detect_contour_acc.
  pose proof (emitted_cases label cnt) as K.
  destruct (emitted label cnt) as [new|e0]; simpl.
  - repeat split.
    + intros M out Em Hz E. inversion E; subst out.
      destruct K as [[-> _] | (a & peri & approx & M1 & _ & _ & _ & _ & Em1 & Hnz & _)].
      * now rewrite app_nil_r.
      * rewrite Em in Em1. inversion Em1; subst M1. now elim Hnz.
    + intros out E. inversion E; subst out.
      destruct K as [[-> _] | (a & peri & approx & M & _ & _ & _ & _ & Em & Hnz & ->)].
      * left. now rewrite app_nil_r.
      * right. exists M, approx.
        assert (Qeq_bool (m00 M) 0 = false) as Hb.
        { destruct (Qeq_bool (m00 M) 0) eqn:B; [|reflexivity].
          apply Qeq_bool_iff in B. now elim Hnz. }
        repeat split; trivial; now apply truediv_nonzero.
    + intros e E. discriminate.
  - repeat split.
    + intros M out _ _ E. discriminate.
    + intros out E. discriminate.
    + intros e E. inversion E; subst e0. exact K.
Qed.

(** C7.  [detect_objects] returns for every path and every state, changing
    nothing but the log: when the image cannot be read the result is empty
    and a warning is logged, and when anything in the [try] block raises
    the result is empty and an error is logged. *)
Theorem detect_objects_never_raises {W} image_path (s : state W) :
  exists facts entries,
    detect_objects image_path s = (Ok facts, logged s entries) /\
    (imread image_path = Ok None ->
       facts = [] /\ entries = [(WARNING, CouldNotRead image_path)]) /\
    (forall e, detection image_path = Raise e ->
       facts = [] /\ entries = [(ERROR, DetectionError image_path e)]) /\
    (forall e, imread image_path = Raise e -> detection image_path = Raise e) /\
    (forall e img, imread image_path = Ok (Some img) ->
       cvtColor_BGR2HSV img = Raise e -> detection image_path = Raise e) /\
    (forall e img hsv, imread image_path = Ok (Some img) ->
       cvtColor_BGR2HSV img = Ok hsv ->
       rfold (detect_color hsv) COLOR_BOUNDS [] = Raise e ->
       detection image_path = Raise e).
Proof.
  exists (detected image_path), (detect_log image_path).
  split; [apply detect_objects_eq|].
  unfold detected, detect_log, detection, rbind.
  split; [|split; [|split; [|split]]].
  - intros E. rewrite E. now split.
  - intros e.
    destruct (imread image_path) as [[img|]|e0]; try discriminate.
    + destruct (cvtColor_BGR2HSV img) as [hsv|e1].
      * destruct (rfold (detect_color hsv) COLOR_BOUNDS []) as [fs|e2];
          [discriminate|]. intros E; inversion E; now split.
      * intros E; inversion E; now split.
    + intros E; inversion E; now split.
  - intros e E. now rewrite E.
  - intros e img E1 E2. now rewrite E1, E2.
  - intros e img hsv E1 E2 E3. now rewrite E1, E2, E3.
Qed.

End DetectorClaims.

(** ** The claims on the judge *)

Section JudgeClaims.
Context {W : Type}.

(** C2.  [judge_answer] always returns 0 or 1.  On a first completion [c]
    it decides on [c] stripped and lower-cased: 1 when that contains the
    standalone word yes, 0 when it does not but contains the standalone
    word no, and 0 with an ambiguity warning when it contains neither; an
    empty completion list gives 0.  So "Yes" and "  yes, that's correct"
    give 1, "No" gives 0 and "yesterday" gives 0. *)
Theorem judge_answer_parsing (vlm : VLM W) q a g (s : state W) :
  exists v s',
    judge_answer vlm q a g s = (Ok v, s') /\
    binary v /\
    (forall w,
        inference vlm (JUDGE_PROMPT_TEMPLATE q g a) None (Some 5%nat) (world s)
        = (Ok (PyList []), w) ->
        v = 0%Z /\ s' = logged (moved s w) [(WARNING, JudgeNoResponse)]) /\
    (forall c rest w,
        inference vlm (JUDGE_PROMPT_TEMPLATE q g a) None (Some 5%nat) (world s)
        = (Ok (PyList (c :: rest)), w) ->
        let decision := lower (strip c) in
        (Re.standalone "yes" decision -> v = 1%Z) /\
        (~ Re.standalone "yes" decision -> Re.standalone "no" decision ->
           v = 0%Z) /\
        (~ Re.standalone "yes" decision -> ~ Re.standalone "no" decision ->
           v = 0%Z /\ s' = logged (moved s w) [(WARNING, JudgeAmbiguous c)]) /\
        (c = "Yes" -> v = 1%Z) /\
        (c = "  yes, that's correct" -> v = 1%Z) /\
        (c = "No" -> v = 0%Z) /\
        (c = "yesterday" -> v = 0%Z)).
Proof.
  rewrite judge_answer_eq.
  destruct (inference vlm _ None (Some 5%nat) (world s)) as [r w0].
  exists (verdict r), (logged (moved s w0) (judge_log r)).
  split; [reflexivity|]. split; [apply verdict_binary|]. split.
  - intros w E. inversion E; subst. now split.
  - intros c rest w E. inversion E; subst r w0. clear E.
    cbv zeta. unfold verdict, judge_log.
    pose proof (ReFacts.search_word_standalone "yes" (lower (strip c))
                  ReFacts.word_literal_yes) as Hy.
    pose proof (ReFacts.search_word_standalone "no" (lower (strip c))
                  ReFacts.word_literal_no) as Hn.
    split; [|split; [|split; [|split; [|split; [|split]]]]].
    + intros Y. apply Hy in Y. now rewrite Y.
    + intros NY _. destruct (Re.search_word "yes" (lower (strip c)));
        [elim NY; now apply Hy | reflexivity].
    + intros NY NN.
      destruct (Re.search_word "yes" (lower (strip c)));
        [elim NY; now apply Hy|].
      destruct (Re.search_word "no" (lower (strip c)));
        [elim NN; now apply Hn|]. now split.
    + intros ->. reflexivity.
    + intros ->. reflexivity.
    + intros ->. reflexivity.
    + intros ->. reflexivity.
Qed.

(** C10.  When the stripped, lower-cased first completion contains both yes
    and no as standalone words, [judge_answer] returns 1 and logs nothing:
    the test for yes comes first. *)
Theorem yes_takes_precedence (vlm : VLM W) q a g (s : state W) c rest w :
  inference vlm (JUDGE_PROMPT_TEMPLATE q g a) None (Some 5%nat) (world s)
  = (Ok (PyList (c :: rest)), w) ->
  Re.standalone "yes" (lower (strip c)) ->
  Re.standalone "no" (lower (strip c)) ->
  judge_answer vlm q a g s = (Ok 1%Z, moved s w).
Proof.
  intros E Y _. rewrite judge_answer_eq, E. unfold verdict, judge_log.
  apply (ReFacts.search_word_standalone "yes" _ ReFacts.word_literal_yes) in Y.
  rewrite Y. now rewrite logged_nil.
Qed.

End JudgeClaims.

(** The completion "yes and no" holds both words. *)
Example yes_and_no_both :
  Re.standalone "yes" (lower (strip "yes and no")) /\
  Re.standalone "no" (lower (strip "yes and no")).
Proof.
  split.
  - exists EmptyString, " and no". now repeat split.
  - exists "yes and ", EmptyString. now repeat split.
Qed.

Lemma yes_takes_precedence_witness :
  judge_answer Sample.scripted "Is the circle green?" "both" "yes"
    (Sample.start [Ok (PyList ["yes and no"])])
  = (Ok 1%Z, Sample.start []).
Proof.
  apply (yes_takes_precedence Sample.scripted _ _ _
           (Sample.start [Ok (PyList ["yes and no"])]) "yes and no" [] []).
  - reflexivity.
  - exists EmptyString, " and no". repeat split; reflexivity.
  - exists "yes and ", EmptyString. repeat split; reflexivity.
Defined.

Lemma judge_answer_parsing_witness :
  exists s',
    judge_answer Sample.scripted "Is the circle green?" "it is" "yes"
      (Sample.start [Ok (PyList ["  yes, that's correct"])])
    = (Ok 1%Z, s').
Proof.
  destruct (judge_answer_parsing Sample.scripted "Is the circle green?" "it is" "yes"
              (Sample.start [Ok (PyList ["  yes, that's correct"])]))
    as (v & s' & E & _ & _ & H).
  exists s'. rewrite E.
  destruct (H "  yes, that's correct" [] [] eq_refl) as (Hy & _).
  rewrite Hy; [reflexivity|].
  exists EmptyString, ", that's correct". repeat split; reflexivity.
Defined.

(** *** The detector on the sample scene *)

Lemma red_ranges_merged_witness :
  detection (cv := Sample.cv) "scene.png"
  = Ok (Some [mkFact "red" "square" (1, 0)%Z; mkFact "green" "square" (2, 0)%Z]) /\
  exists cs news,
    findContours (OpenCV := Sample.cv) (red_mask Sample.scene) = Ok cs /\
    Forall2 (fun cnt new =>
               emitted (cv := Sample.cv) "red" cnt = Ok new /\
               (List.length new <= 1)%nat) cs news /\
    [mkFact "red" "square" (1, 0)%Z] = List.concat news.
Proof.
  assert (detection (cv := Sample.cv) "scene.png"
          = Ok (Some [mkFact "red" "square" (1, 0)%Z;
                      mkFact "green" "square" (2, 0)%Z])) as D
    by (vm_compute; reflexivity).
  split; [exact D|].
  destruct (red_ranges_merged (cv := Sample.cv) "scene.png" _ D)
    as (img & hsv & Ei & Eh & _ & _ & (cs & news & C & F & E) & _).
  assert (hsv = Sample.scene) as ->.
  { vm_compute in Ei. inversion Ei; subst img.
    vm_compute in Eh. now inversion Eh. }
  exists cs, news. split; [exact C|]. split; [exact F|]. exact E.
Defined.

Lemma noise_threshold_witness :
  exists cs news,
    findContours (OpenCV := Sample.cv) (red_mask Sample.scene) = Ok cs /\
    [mkFact "red" "square" (1, 0)%Z] = ([] ++ List.concat news)%list /\
    List.length cs = List.length news.
Proof.
  destruct (noise_threshold (cv := Sample.cv) "red" (red_mask Sample.scene) []
              [mkFact "red" "square" (1, 0)%Z])
    as (cs & news & C & E & F).
  - vm_compute. reflexivity.
  - exists cs, news. split; [exact C|]. split; [exact E|].
    exact (Forall2_length F).
Defined.

Lemma centroid_guard_witness :
  moments (OpenCV := Sample.cv) (3, 0)%Z = Ok (mkMoments 0 (0 * 3) (0 * 0)) /\
  detect_contour (cv := Sample.cv) "gray" (3, 0)%Z [] = Ok [] /\
  ([] : list fact) = [].
Proof.
  split; [reflexivity|]. split; [reflexivity|].
  destruct (centroid_guard (cv := Sample.cv) "gray" (3, 0)%Z []) as (H & _ & _).
  apply (H (mkMoments 0 (0 * 3) (0 * 0)) []).
  - reflexivity.
  - reflexivity.
  - reflexivity.
Defined.

Lemma detect_objects_never_raises_witness :
  detect_objects (cv := Sample.cv) "missing.png" (Sample.start [])
  = (Ok [], logged (Sample.start []) [(WARNING, CouldNotRead "missing.png")]) /\
  detect_objects (cv := Sample.cv) "broken.png" (Sample.start [])
  = (Ok [], logged (Sample.start [])
              [(ERROR, DetectionError "broken.png" (Error "corrupt file"))]).
Proof.
  split.
  - destruct (detect_objects_never_raises (cv := Sample.cv) "missing.png"
                (Sample.start [])) as (facts & entries & E & Hnone & _).
    destruct (Hnone eq_refl) as [-> ->]. exact E.
  - destruct (detect_objects_never_raises (cv := Sample.cv) "broken.png"
                (Sample.start [])) as (facts & entries & E & _ & Hraise & _).
    destruct (Hraise (Error "corrupt file") eq_refl) as [-> ->]. exact E.
Defined.

(** ** The loop bodies of the drivers *)

Section Frames.
Context {W : Type} {cv : OpenCV}.
Local Open Scope py_scope.

Lemma keeps_ret {A} (a : A) : keeps_lists (W := W) (ret a).
Proof. intros s. now split. Qed.

Lemma keeps_lift {A} (r : result A) : keeps_lists (W := W) (lift r).
Proof. intros s. now split. Qed.

Lemma keeps_logging l m : keeps_lists (W := W) (logging l m).
Proof. intros s. now split. Qed.

Lemma keeps_call (vlm : VLM W) prompt img tokens :
  keeps_lists (call_inference vlm prompt img tokens).
Proof.
  intros s. unfold call_inference.
  destruct (inference vlm prompt img tokens (world s)). now split.
Qed.

Lemma keeps_bind {A B} (m : M W A) (k : A -> M W B) :
  keeps_lists m -> (forall a, keeps_lists (k a)) -> keeps_lists (bind m k).
Proof.
  intros Hm Hk s. unfold bind. specialize (Hm s).
  destruct (m s) as [[a|e] s1]; simpl in *.
  - destruct (Hk a s1) as [P S]. destruct Hm as [P1 S1].
    split; congruence.
  - exact Hm.
Qed.

Lemma keeps_first_or (xs : response) default :
  keeps_lists (W := W) (first_or xs default).
Proof.
  unfold first_or. destruct (truthy xs); [apply keeps_lift | apply keeps_ret].
Qed.

Lemma keeps_detect image_path : keeps_lists (W := W) (detect_objects image_path).
Proof. intros s. rewrite detect_objects_eq. now split. Qed.

Lemma keeps_judge (vlm : VLM W) q a g : keeps_lists (judge_answer vlm q a g).
Proof.
  intros s. rewrite judge_answer_eq.
  destruct (inference vlm _ None (Some 5%nat) (world s)). now split.
Qed.

(** A step that keeps the lists, followed by steps that append one pair,
    appends one pair. *)
Lemma appends_bind {A} (m : M W A) (k : A -> M W unit) :
  keeps_lists m -> (forall a, appends_one (k a)) -> appends_one (bind m k).
Proof.
  intros Hm Hk s. unfold bind. specialize (Hm s).
  destruct (m s) as [[a|e] s1]; simpl in *.
  - specialize (Hk a s1). destruct Hm as [P S].
    destruct (k a s1) as [[u|e] s2].
    + destruct Hk as (x & sc & Hp & Hs & Hb). exists x, sc.
      rewrite <- P, <- S. now repeat split.
    + destruct Hk as [Hp Hs]. split; congruence.
  - exact Hm.
Qed.

(** The end of every loop body: the prediction is appended, judged, and the
    score is appended. *)
Lemma appends_judged (judge_vlm : VLM W) q a g :
  appends_one
    (predictions_append a ;;
     score <- judge_answer judge_vlm q a g ;;
     scores_append score).
Proof.
  intros s. unfold bind, predictions_append, scores_append.
  rewrite judge_answer_eq. cbn [world].
  destruct (inference judge_vlm _ None (Some 5%nat) (world s)) as [r w].
  exists a, (verdict r). repeat split. apply verdict_binary.
Qed.

Lemma zero_shot_row_step (vlm judge_vlm : VLM W) :
  row_step (zero_shot_row vlm judge_vlm).
Proof.
  intros [index r]. unfold zero_shot_row.
  apply appends_bind; [apply keeps_call|]. intros answers.
  apply appends_bind.
  - destruct (negb (truthy answers)).
    + apply keeps_bind; [apply keeps_logging | intros _; apply keeps_ret].
    + apply keeps_lift.
  - intros model_answer. apply appends_judged.
Qed.

Lemma classic_agent_row_step (vlm judge_vlm : VLM W) :
  row_step (classic_agent_row vlm judge_vlm).
Proof.
  intros [index r]. unfold classic_agent_row.
  apply appends_bind; [apply keeps_detect|]. intros objects.
  apply appends_bind; [apply keeps_call|]. intros answers.
  apply appends_bind.
  - destruct (truthy answers); [apply keeps_lift | apply keeps_ret].
  - intros model_answer. apply appends_judged.
Qed.

Lemma dl_agent_synthesize_step (vlm judge_vlm : VLM W) q g img plan context :
  appends_one (dl_agent_synthesize vlm judge_vlm q g img plan context).
Proof.
  unfold dl_agent_synthesize.
  apply appends_bind; [apply keeps_call|]. intros answers.
  apply appends_bind; [apply keeps_first_or|].
  intros model_answer. apply appends_judged.
Qed.

Lemma dl_agent_row_step (vlm judge_vlm : VLM W) :
  row_step (dl_agent_row vlm judge_vlm).
Proof.
  intros [index r]. unfold dl_agent_row.
  apply appends_bind; [apply keeps_call|]. intros plan_list.
  apply appends_bind; [apply keeps_first_or|]. intros plan.
  apply appends_bind; [apply keeps_call|]. intros context_list.
  apply appends_bind; [apply keeps_first_or|]. intros context.
  apply dl_agent_synthesize_step.
Qed.

End Frames.

(** ** The loop and the accuracy *)

Section LoopFacts.
Context {W : Type}.

(** The invariant of the loop of a driver, at its exit: both lists have
    grown by one entry per iteration that ran to its end, the scores are 0
    or 1, and the loop stopped early exactly when it raised. *)
Lemma for_each_inv (body : nat * row -> M W unit) (Hbody : row_step body) xs :
  forall s,
    exists ps scs,
      predictions (snd (for_each xs body s)) = (predictions s ++ ps)%list /\
      scores (snd (for_each xs body s)) = (scores s ++ scs)%list /\
      List.length ps = completed xs body s /\
      List.length scs = completed xs body s /\
      Forall binary scs /\
      match fst (for_each xs body s) with
      | Ok _ => completed xs body s = List.length xs
      | Raise _ => (completed xs body s < List.length xs)%nat
      end.
Proof.
  induction xs as [|x xs IH]; intros s; simpl.
  - exists [], []. rewrite !app_nil_r. repeat split. constructor.
  - unfold bind. pose proof (Hbody x s) as Hx.
    destruct (body x s) as [[u|e] s1].
    + destruct Hx as (a & sc & Hp & Hs & Hb).
      destruct (IH s1) as (ps & scs & Ep & Es & Lp & Ls & Fb & Hr).
      exists (a :: ps), (sc :: scs).
      rewrite Ep, Es, Hp, Hs, <- !app_assoc. simpl.
      repeat split; try congruence.
      * now constructor.
      * destruct (fst (for_each xs body s1)); lia.
    + destruct Hx as [Hp Hs]. exists [], []. simpl.
      rewrite !app_nil_r. repeat split; try assumption; [apply Forall_nil | lia].
Qed.

Lemma combine_append {A B} (xs : list A) : forall (ys : list B) xs' ys',
  List.length xs = List.length ys ->
  combine (xs ++ xs') (ys ++ ys') = (combine xs ys ++ combine xs' ys')%list.
Proof.
  induction xs as [|x xs IH]; intros [|y ys] xs' ys' H; simpl in *;
    try discriminate; [reflexivity|].
  f_equal. apply IH. now inversion H.
Qed.

Lemma iterrows_app (done rest : list row) :
  iterrows (done ++ rest) =
  (iterrows done ++ iterrows_from (List.length done) rest)%list.
Proof.
  unfold iterrows, iterrows_from.
  rewrite length_app, seq_app. simpl.
  rewrite combine_append; [reflexivity | now rewrite length_seq].
Qed.

Lemma length_iterrows (dataset : list row) :
  List.length (iterrows dataset) = List.length dataset.
Proof.
  unfold iterrows. rewrite length_combine, length_seq. apply Nat.min_id.
Qed.

Lemma sum_from (scs : list Z) : forall a,
  Forall binary scs ->
  fold_left Z.add scs a = (a + Z.of_nat (count_correct scs))%Z.
Proof.
  unfold count_correct.
  induction scs as [|sc scs IH]; intros a F; simpl.
  - lia.
  - inversion F as [|? ? Hb F']; subst. rewrite (IH _ F').
    destruct Hb as [-> | ->]; simpl; lia.
Qed.

Lemma sum_binary (scs : list Z) :
  Forall binary scs -> PyNum.sum scs = Z.of_nat (count_correct scs).
Proof. intros F. unfold PyNum.sum. now rewrite (sum_from scs 0 F). Qed.

(** The accuracy of a non-empty list of scores is defined and is the
    fraction of ones; that of the empty list is 0. *)
Lemma accuracy_of_binary (scs : list Z) :
  Forall binary scs ->
  exists acc,
    accuracy_of scs = Ok acc /\
    (scs = [] -> acc = 0%Q) /\
    (scs <> [] ->
       acc = (inject_Z (Z.of_nat (count_correct scs))
              / inject_Z (Z.of_nat (List.length scs)))%Q) /\
    (0 <= acc)%Q /\ (acc <= 1)%Q.
Proof.
  intros F. destruct scs as [|sc scs].
  - exists 0%Q. simpl. repeat split; try easy.
  - set (l := sc :: scs) in *.
    assert (0 < inject_Z (Z.of_nat (List.length l)))%Q as Hpos.
    { rewrite <- (Zlt_Qlt 0). simpl. lia. }
    assert (Qeq_bool (inject_Z (Z.of_nat (List.length l))) 0 = false) as Hnz.
    { destruct (Qeq_bool _ 0) eqn:E; [|reflexivity].
      apply Qeq_bool_iff in E. rewrite E in Hpos. now apply Qlt_irrefl in Hpos. }
    exists (inject_Z (Z.of_nat (count_correct l))
            / inject_Z (Z.of_nat (List.length l)))%Q.
    split.
    { change (accuracy_of l) with
        (PyNum.truediv (inject_Z (PyNum.sum l))
                       (inject_Z (Z.of_nat (List.length l)))).
      rewrite (sum_binary l F). unfold PyNum.truediv. now rewrite Hnz. }
    split; [discriminate|]. split; [reflexivity|]. split.
    + apply Qle_shift_div_l; [assumption|].
      rewrite Qmult_0_l, <- (Zle_Qle 0). lia.
    + apply Qle_shift_div_r; [assumption|].
      rewrite Qmult_1_l, <- Zle_Qle. apply inj_le.
      unfold count_correct. apply count_occ_bound.
Qed.

(** A driver, from the exit of its loop on. *)
Lemma run_driver_eq p (body : nat * row -> M W unit) dataset s :
  run_driver p body dataset s =
  match for_each (iterrows dataset) body (entered p s) with
  | (Ok _, s2) =>
      match accuracy_of (scores s2) with
      | Ok acc => (Ok (acc, predictions s2), logged s2 [(INFO, Complete p acc)])
      | Raise e => (Ok (0%Q, predictions s2), logged s2 [(ERROR, LoopError p e)])
      end
  | (Raise e, s2) =>
      (Ok (0%Q, predictions s2), logged s2 [(ERROR, LoopError p e)])
  end.
Proof.
  unfold run_driver, try_except, bind, logging, set_predictions, set_scores,
    get_scores, get_predictions, lift, ret. cbn [world log predictions scores].
  change (mkState (world s) (log s ++ [(INFO, Starting p)]) [] [])
    with (entered p s).
  destruct (for_each (iterrows dataset) body (entered p s)) as [[u|e] s2].
  - destruct (accuracy_of (scores s2)) as [acc|e]; reflexivity.
  - reflexivity.
Qed.

End LoopFacts.

Section DriverShape.
Context {W : Type} {cv : OpenCV}.

(** Every driver is [run_driver] on its loop body, and its loop body
    appends one prediction and one score, or raises. *)
Lemma drivers_shape p run body :
  In (p, run, body) (drivers (W := W)) ->
  (forall vlm dataset judge_vlm,
      run vlm dataset judge_vlm = run_driver p (body vlm judge_vlm) dataset) /\
  (forall vlm judge_vlm, row_step (body vlm judge_vlm)).
Proof.
  intros [E | [E | [E | []]]]; inversion E; subst; split; try reflexivity;
    intros vlm judge_vlm.
  - apply zero_shot_row_step.
  - apply classic_agent_row_step.
  - apply dl_agent_row_step.
Qed.

End DriverShape.

(** ** The claims on the drivers *)

Section DriverClaims.
Context {W : Type} {cv : OpenCV}.

(** C3.  When the loop of a driver runs to its end, the driver returns the
    number of rows scored 1 divided by the number of rows judged, which is
    the number of rows of the dataset; the accuracy lies between 0 and 1.
    On the empty dataset the driver returns exactly 0 and no prediction,
    and logs its completion, not an error: nothing divides by zero. *)
Theorem accuracy_of_completed_run p run body :
  In (p, run, body) (drivers (W := W)) ->
  forall vlm judge_vlm (s : state W),
    run vlm [] judge_vlm s
    = (Ok (0%Q, []), logged (entered p s) [(INFO, Complete p 0)]) /\
    forall dataset s2,
      for_each (iterrows dataset) (body vlm judge_vlm) (entered p s) = (Ok tt, s2) ->
      exists acc,
        run vlm dataset judge_vlm s
        = (Ok (acc, predictions s2), logged s2 [(INFO, Complete p acc)]) /\
        List.length (scores s2) = List.length dataset /\
        List.length (predictions s2) = List.length dataset /\
        (dataset <> [] ->
           acc = (inject_Z (Z.of_nat (count_correct (scores s2)))
                  / inject_Z (Z.of_nat (List.length dataset)))%Q) /\
        (0 <= acc)%Q /\ (acc <= 1)%Q /\
        (dataset = [] -> acc = 0%Q /\ predictions s2 = []).
Proof.
  intros Hin vlm judge_vlm s.
  destruct (drivers_shape p run body Hin) as [Hrun Hstep].
  split.
  { rewrite Hrun, run_driver_eq. reflexivity. }
  intros dataset s2 Hloop. rewrite Hrun, run_driver_eq, Hloop.
  destruct (for_each_inv _ (Hstep vlm judge_vlm) (iterrows dataset) (entered p s))
    as (ps & scs & Ep & Es & Lp & Ls & Fb & Hr).
  rewrite Hloop in Ep, Es, Hr. simpl in Ep, Es, Hr.
  rewrite Hr, length_iterrows in Lp, Ls.
  destruct (accuracy_of_binary scs Fb) as (acc & Ea & Hnil & Hcons & H0 & H1).
  exists acc. rewrite Es, Ep, Ea. split; [reflexivity|].
  split; [assumption|]. split; [assumption|]. split.
  { intros Hne. rewrite <- Ls. apply Hcons. intros ->. apply Hne.
    destruct dataset; [reflexivity | discriminate]. }
  split; [assumption|]. split; [assumption|].
  intros ->. simpl in Lp, Ls.
  destruct scs; [|discriminate]. destruct ps; [|discriminate].
  split; [now apply Hnil | reflexivity].
Qed.

(** C5.  Whichever way a driver leaves its loop, it returns, and at that
    point the list of predictions and the list of scores have one length,
    the number of iterations that ran to their end; the list it returns is
    the list of predictions at that point, and the predictions collected
    by the rows of any prefix of the dataset the loop got through are its
    beginning. *)
Theorem lists_stay_in_step p run body :
  In (p, run, body) (drivers (W := W)) ->
  forall vlm judge_vlm dataset (s : state W),
    exists acc s',
      run vlm dataset judge_vlm s = (Ok (acc, predictions s'), s') /\
      List.length (predictions s') = List.length (scores s') /\
      List.length (scores s')
      = completed (iterrows dataset) (body vlm judge_vlm) (entered p s) /\
      (completed (iterrows dataset) (body vlm judge_vlm) (entered p s)
       <= List.length dataset)%nat /\
      forall done rest sk,
        dataset = (done ++ rest)%list ->
        for_each (iterrows done) (body vlm judge_vlm) (entered p s) = (Ok tt, sk) ->
        exists more, predictions s' = (predictions sk ++ more)%list.
Proof.
  intros Hin vlm judge_vlm dataset s.
  destruct (drivers_shape p run body Hin) as [Hrun Hstep].
  rewrite Hrun, run_driver_eq.
  destruct (for_each_inv _ (Hstep vlm judge_vlm) (iterrows dataset) (entered p s))
    as (ps & scs & Ep & Es & Lp & Ls & Fb & Hr).
  assert (exists acc entries,
             match for_each (iterrows dataset) (body vlm judge_vlm) (entered p s) with
             | (Ok _, s2) =>
                 match accuracy_of (scores s2) with
                 | Ok acc => (Ok (acc, predictions s2), logged s2 [(INFO, Complete p acc)])
                 | Raise e => (Ok (0%Q, predictions s2), logged s2 [(ERROR, LoopError p e)])
                 end
             | (Raise e, s2) =>
                 (Ok (0%Q, predictions s2), logged s2 [(ERROR, LoopError p e)])
             end
             = (Ok (acc, predictions (snd (for_each (iterrows dataset)
                                             (body vlm judge_vlm) (entered p s)))),
                logged (snd (for_each (iterrows dataset)
                               (body vlm judge_vlm) (entered p s))) entries))
    as (acc & entries & Eq).
  { destruct (for_each (iterrows dataset) (body vlm judge_vlm) (entered p s))
      as [[u|e] s2]; simpl.
    - destruct (accuracy_of (scores s2)); eauto.
    - eauto. }
  rewrite Eq. clear Eq.
  set (s2 := snd (for_each (iterrows dataset) (body vlm judge_vlm) (entered p s))) in *.
  exists acc, (logged s2 entries).
  simpl in Ep, Es. split; [reflexivity|].
  change (predictions (logged s2 entries)) with (predictions s2).
  change (scores (logged s2 entries)) with (scores s2).
  rewrite Ep, Es. split; [congruence|]. split; [assumption|]. split.
  { rewrite <- (length_iterrows dataset).
    destruct (fst (for_each (iterrows dataset) (body vlm judge_vlm) (entered p s)));
      lia. }
  intros done rest sk -> Hdone.
  subst s2. rewrite iterrows_app, for_each_app, Hdone in Ep.
  destruct (for_each_inv _ (Hstep vlm judge_vlm)
              (iterrows_from (List.length done) rest) sk)
    as (ps' & _ & Ep' & _).
  exists ps'. rewrite <- Ep. exact Ep'.
Qed.

(** C1, as the code has it.  When the first [k] rows are answered and
    judged and the loop body raises on the next row, the driver does not
    raise: it logs the error and returns the accuracy 0 (not the accuracy
    over the [k] rows) with the [k] predictions collected so far. *)
Theorem failure_returns_zero_accuracy p run body :
  In (p, run, body) (drivers (W := W)) ->
  forall vlm judge_vlm done r rest (s sk se : state W) e,
    for_each (iterrows done) (body vlm judge_vlm) (entered p s) = (Ok tt, sk) ->
    body vlm judge_vlm (List.length done, r) sk = (Raise e, se) ->
    run vlm (done ++ r :: rest)%list judge_vlm s
    = (Ok (0%Q, predictions sk), logged se [(ERROR, LoopError p e)]) /\
    predictions se = predictions sk /\
    List.length (predictions sk) = List.length done /\
    List.length (scores sk) = List.length done.
Proof.
  intros Hin vlm judge_vlm done r rest s sk se e Hdone Hrow.
  destruct (drivers_shape p run body Hin) as [Hrun Hstep].
  pose proof (Hstep vlm judge_vlm (List.length done, r) sk) as Hx.
  rewrite Hrow in Hx. destruct Hx as [Hp Hs].
  destruct (for_each_inv _ (Hstep vlm judge_vlm) (iterrows done) (entered p s))
    as (ps & scs & Ep & Es & Lp & Ls & _ & Hr).
  rewrite Hdone in Ep, Es, Hr. simpl in Ep, Es, Hr.
  rewrite Hr, length_iterrows in Lp, Ls.
  rewrite Hrun, run_driver_eq, iterrows_app, for_each_app, Hdone.
  unfold iterrows_from. simpl. unfold bind. rewrite Hrow, Hp.
  repeat split; congruence.
Qed.

End DriverClaims.

Lemma append_assoc (a b c : string) : (a ++ b) ++ c = a ++ (b ++ c).
Proof. induction a as [|x a IH]; simpl; [reflexivity | now rewrite IH]. Qed.

Lemma append_empty (a : string) : a ++ EmptyString = a.
Proof. induction a as [|x a IH]; simpl; [reflexivity | now rewrite IH]. Qed.

Section PlaceholderClaim.
Context {W : Type}.

(** C8.  In the loop body of the DL agent, when the plan call and the
    extraction call return, the synthesis step asks the model with the
    final prompt whose text is spelled out below: the fixed instructions
    around the question, the plan text under "Reasoning Plan:" and the
    context text under "Image Context:".  The plan text is the first
    completion of the plan call or, when that call returned [None] or no
    completion, "No plan generated."; the context text is the first
    completion of the extraction call or, likewise,
    "No context extracted.".  So the prompt always holds a plan text and a
    context text, and holds the placeholders when the responses are
    missing or empty. *)
Theorem placeholders_on_empty (vlm judge_vlm : VLM W) index r (s : state W)
    plan_list w1 context_list w2 :
  inference vlm
    ("To answer the question '" ++ question r ++ "', "
     ++ "what is the step-by-step reasoning plan I should follow? "
     ++ "List the steps.")
    (Some (image_path r)) (Some 100%nat) (world s) = (Ok plan_list, w1) ->
  inference vlm
    ("Describe all objects in the image in detail. For each object, "
     ++ "list its color, its shape, and its relative position (e.g., top-left, bottom-right).")
    (Some (image_path r)) (Some 150%nat) w1 = (Ok context_list, w2) ->
  let plan := text_or plan_list "No plan generated." in
  let context := text_or context_list "No context extracted." in
  let final_prompt :=
    "You are a reasoning agent. Use the following information to answer the question."
    ++ nl ++ nl
    ++ "Original Question: " ++ question r ++ nl ++ nl
    ++ "Reasoning Plan:" ++ nl ++ plan ++ nl ++ nl
    ++ "Image Context:" ++ nl ++ context ++ nl ++ nl
    ++ "Based on the plan and context, what is the final, concise answer to the original question?" in
  dl_agent_row vlm judge_vlm (index, r) s
  = bind (call_inference vlm final_prompt (Some (image_path r)) None)
      (fun model_answer_list =>
         bind (first_or model_answer_list EmptyString)
           (fun model_answer =>
              bind (predictions_append model_answer)
                (fun _ =>
                   bind (judge_answer judge_vlm (question r) model_answer (answer r))
                     scores_append)))
      (moved s w2) /\
  final_prompt = final_prompt_of (question r) plan context /\
  (exists before between after,
      final_prompt = before ++ plan ++ between ++ context ++ after) /\
  (truthy plan_list = false -> plan = "No plan generated.") /\
  (truthy context_list = false -> context = "No context extracted.").
Proof.
  intros Hplan Hctx plan context final_prompt.
  split; [|split; [|split; [|split]]].
  - unfold dl_agent_row. unfold bind at 1. unfold call_inference at 1.
    change (plan_prompt_of (question r)) with
      ("To answer the question '" ++ question r ++ "', "
       ++ "what is the step-by-step reasoning plan I should follow? "
       ++ "List the steps.").
    rewrite Hplan.
    assert (forall xs d (t : state W),
               first_or (W := W) xs d t = (Ok (text_or xs d), t)) as Hfirst.
    { intros [|[|c l]] d t; reflexivity. }
    unfold bind at 1. rewrite Hfirst.
    unfold bind at 1. unfold call_inference at 1. cbn [world log predictions scores].
    change extract_prompt with
      ("Describe all objects in the image in detail. For each object, "
       ++ "list its color, its shape, and its relative position (e.g., top-left, bottom-right).").
    rewrite Hctx.
    unfold bind at 1. rewrite Hfirst.
    reflexivity.
  - reflexivity.
  - exists
      ("You are a reasoning agent. Use the following information to answer the question."
       ++ nl ++ nl ++ "Original Question: " ++ question r ++ nl ++ nl
       ++ "Reasoning Plan:" ++ nl),
      (nl ++ nl ++ "Image Context:" ++ nl),
      (nl ++ nl
       ++ "Based on the plan and context, what is the final, concise answer to the original question?").
    subst final_prompt. now rewrite !append_assoc.
  - subst plan. destruct plan_list as [|[|c l]]; simpl; try reflexivity.
    discriminate.
  - subst context. destruct context_list as [|[|c l]]; simpl; try reflexivity.
    discriminate.
Qed.

End PlaceholderClaim.

(** *** The drivers on the sample dataset *)

(** C1, as the claim states it, fails: on three rows where the third
    inference call raises after two rows were judged 1 and 0, the accuracy
    over the two completed rows is 1/2 and [run_zero_shot] returns 0. *)
Lemma partial_accuracy_counterexample :
  fst Sample.after_two = Ok tt /\
  fst (zero_shot_row Sample.scripted Sample.scripted (2%nat, Sample.row3)
         (snd Sample.after_two))
  = Raise Sample.down /\
  scores (snd Sample.after_two) = [1; 0]%Z /\
  fst (run_zero_shot Sample.scripted Sample.rows3 Sample.scripted
         (Sample.start Sample.script_fail3))
  = Ok (0%Q, ["red"; "a square"]) /\
  ~ (0 == inject_Z (Z.of_nat (count_correct (scores (snd Sample.after_two))))
          / inject_Z 2)%Q.
Proof.
  repeat split; try (vm_compute; reflexivity).
  vm_compute. discriminate.
Qed.

Lemma failure_returns_zero_accuracy_witness :
  exists se,
    run_zero_shot Sample.scripted Sample.rows3 Sample.scripted
      (Sample.start Sample.script_fail3)
    = (Ok (0%Q, ["red"; "a square"]),
       logged se [(ERROR, LoopError ZeroShot Sample.down)]).
Proof.
  set (s := Sample.start Sample.script_fail3).
  set (body := zero_shot_row Sample.scripted Sample.scripted).
  set (done := firstn 2 Sample.rows3).
  set (r := mkRow "Is the circle green?" "yes" "scene.png").
  set (sk := snd (for_each (iterrows done) body (entered ZeroShot s))).
  set (se := snd (body (List.length done, r) sk)).
  exists se.
  destruct (failure_returns_zero_accuracy (cv := Sample.cv)
              ZeroShot run_zero_shot zero_shot_row (or_introl eq_refl)
              Sample.scripted Sample.scripted done r [] s sk se Sample.down)
    as (E & _).
  - vm_compute. reflexivity.
  - vm_compute. reflexivity.
  - exact E.
Defined.

Lemma accuracy_of_completed_run_witness :
  exists acc s2,
    run_zero_shot Sample.scripted Sample.rows3 Sample.scripted
      (Sample.start Sample.script_full)
    = (Ok (acc, predictions s2), logged s2 [(INFO, Complete ZeroShot acc)]) /\
    List.length (predictions s2) = 3%nat /\
    (0 <= acc)%Q /\ (acc <= 1)%Q.
Proof.
  set (s := Sample.start Sample.script_full).
  set (body := zero_shot_row Sample.scripted Sample.scripted).
  set (s2 := snd (for_each (iterrows Sample.rows3) body (entered ZeroShot s))).
  destruct (accuracy_of_completed_run (cv := Sample.cv)
              ZeroShot run_zero_shot zero_shot_row (or_introl eq_refl)
              Sample.scripted Sample.scripted s) as [_ H].
  destruct (H Sample.rows3 s2) as (acc & E & _ & Lp & _ & H0 & H1 & _).
  - vm_compute. reflexivity.
  - exists acc, s2. repeat split; assumption.
Defined.

Lemma lists_stay_in_step_witness :
  exists acc s' more,
    run_classic_agent_pipeline (cv := Sample.cv)
      Sample.scripted Sample.rows3 Sample.scripted
      (Sample.start Sample.script_fail3)
    = (Ok (acc, predictions s'), s') /\
    List.length (predictions s') = List.length (scores s') /\
    predictions s' = (["red"] ++ more)%list.
Proof.
  set (s := Sample.start Sample.script_fail3).
  destruct (lists_stay_in_step (cv := Sample.cv)
              ClassicAgent run_classic_agent_pipeline classic_agent_row
              (or_intror (or_introl eq_refl))
              Sample.scripted Sample.scripted Sample.rows3 s)
    as (acc & s' & E & L & _ & _ & H).
  destruct (H (firstn 1 Sample.rows3) (skipn 1 Sample.rows3)
              (snd (for_each (iterrows (firstn 1 Sample.rows3))
                      (classic_agent_row (cv := Sample.cv)
                         Sample.scripted Sample.scripted)
                      (entered ClassicAgent s))))
    as (more & Hmore).
  - reflexivity.
  - vm_compute. reflexivity.
  - exists acc, s', more. split; [exact E|]. split; [exact L|]. exact Hmore.
Defined.

Lemma placeholders_on_empty_witness :
  dl_agent_row Sample.scripted Sample.scripted (0%nat, Sample.row3)
    (Sample.start [Ok PyNone; Ok (PyList [])])
  = bind (call_inference Sample.scripted
            ("You are a reasoning agent. Use the following information to answer the question."
             ++ nl ++ nl
             ++ "Original Question: Is the circle green?" ++ nl ++ nl
             ++ "Reasoning Plan:" ++ nl ++ "No plan generated." ++ nl ++ nl
             ++ "Image Context:" ++ nl ++ "No context extracted." ++ nl ++ nl
             ++ "Based on the plan and context, what is the final, concise answer to the original question?")
            (Some "scene.png") None)
      (fun model_answer_list =>
         bind (first_or model_answer_list EmptyString)
           (fun model_answer =>
              bind (predictions_append model_answer)
                (fun _ =>
                   bind (judge_answer Sample.scripted "Is the circle green?"
                           model_answer "yes")
                     scores_append)))
      (Sample.start []).
Proof.
  destruct (placeholders_on_empty Sample.scripted Sample.scripted 0%nat
              Sample.row3 (Sample.start [Ok PyNone; Ok (PyList [])])
              PyNone [Ok (PyList [])] (PyList []) [] eq_refl eq_refl)
    as (E & _).
  exact E.
Defined.

(* ================================================================== *)
(** * Further properties *)

(** ** Stripping and lower-casing *)

Module StrFacts.

Lemma isspace_lower_char c : isspace (lower_char c) = isspace c.
Proof. destruct c as [[] [] [] [] [] [] [] []]; reflexivity. Qed.

Lemma lower_char_idem c : lower_char (lower_char c) = lower_char c.
Proof. destruct c as [[] [] [] [] [] [] [] []]; reflexivity. Qed.

Lemma lower_idem s : lower (lower s) = lower s.
Proof.
  induction s as [|c s IH]; simpl; [reflexivity|].
  now rewrite lower_char_idem, IH.
Qed.

Lemma lower_lstrip s : lower (lstrip s) = lstrip (lower s).
Proof.
  induction s as [|c s IH]; simpl; [reflexivity|].
  rewrite isspace_lower_char. destruct (isspace c); [exact IH | reflexivity].
Qed.

Lemma lower_rstrip s : lower (rstrip s) = rstrip (lower s).
Proof.
  induction s as [|c s IH]; simpl; [reflexivity|].
  rewrite <- IH, isspace_lower_char.
  destruct (rstrip s) as [|d r]; simpl; [|reflexivity].
  destruct (isspace c); reflexivity.
Qed.

Lemma lower_strip s : lower (strip s) = strip (lower s).
Proof. unfold strip. now rewrite lower_rstrip, lower_lstrip. Qed.

Lemma rstrip_idem s : rstrip (rstrip s) = rstrip s.
Proof.
  induction s as [|c s IH]; simpl; [reflexivity|].
  destruct (rstrip s) as [|d r] eqn:E.
  - destruct (isspace c) eqn:Ec; simpl; [reflexivity | now rewrite Ec].
  - change (rstrip (String c (String d r))) with
      (match rstrip (String d r) with
       | EmptyString => if isspace c then EmptyString else String c EmptyString
       | x => String c x
       end).
    now rewrite IH.
Qed.

Lemma lstrip_trimmed s : trimmed_left (lstrip s).
Proof.
  induction s as [|c s IH]; simpl; [exact I|].
  destruct (isspace c) eqn:E; [exact IH | exact E].
Qed.

Lemma lstrip_fixed s : trimmed_left s -> lstrip s = s.
Proof. destruct s as [|c s]; simpl; [reflexivity|]. now intros ->. Qed.

Lemma rstrip_trimmed s : trimmed_left s -> trimmed_left (rstrip s).
Proof.
  destruct s as [|c s]; simpl; [trivial|]. intros E.
  destruct (rstrip s); [rewrite E|]; exact E.
Qed.

Lemma strip_idem s : strip (strip s) = strip s.
Proof.
  unfold strip.
  rewrite (lstrip_fixed (rstrip (lstrip s))).
  - apply rstrip_idem.
  - apply rstrip_trimmed, lstrip_trimmed.
Qed.

Lemma lstrip_blank s : blank s = true -> lstrip s = EmptyString.
Proof.
  induction s as [|c s IH]; simpl; [reflexivity|].
  intros H. apply andb_true_iff in H. destruct H as [Hc Hs].
  rewrite Hc. now apply IH.
Qed.

Lemma rstrip_blank s : blank s = true -> rstrip s = EmptyString.
Proof.
  induction s as [|c s IH]; simpl; [reflexivity|].
  intros H. apply andb_true_iff in H. destruct H as [Hc Hs].
  rewrite (IH Hs). now rewrite Hc.
Qed.

Lemma lstrip_blank_app pad s : blank pad = true -> lstrip (pad ++ s) = lstrip s.
Proof.
  induction pad as [|c pad IH]; simpl; [reflexivity|].
  intros H. apply andb_true_iff in H. destruct H as [Hc Hs].
  rewrite Hc. now apply IH.
Qed.

Lemma rstrip_app_blank s pad : blank pad = true -> rstrip (s ++ pad) = rstrip s.
Proof.
  intros H. induction s as [|c s IH]; simpl.
  - now apply rstrip_blank.
  - now rewrite IH.
Qed.

Lemma strip_app_blank s pad : blank pad = true -> strip (s ++ pad) = strip s.
Proof.
  intros H. unfold strip. induction s as [|c s IH]; simpl.
  - now rewrite (lstrip_blank pad H).
  - destruct (isspace c); [exact IH|].
    change (String c (s ++ pad)) with (String c s ++ pad).
    now apply rstrip_app_blank.
Qed.

(** White space around a string does not survive [strip]. *)
Lemma strip_padding pad s pad' :
  blank pad = true -> blank pad' = true -> strip (pad ++ s ++ pad') = strip s.
Proof.
  intros H H'. unfold strip. rewrite (lstrip_blank_app pad _ H).
  now apply strip_app_blank.
Qed.

End StrFacts.

(** ** More on the judge *)

Section JudgeMore.
Context {W : Type}.

(** X1.  Whatever the judge model does, [judge_answer] returns: when the
    inference call raises the score is 0 and the error is logged, and when
    it returns [None] the score is 0 and a warning is logged.  In both
    cases the world is the one the call left and nothing else changed. *)
Theorem judge_absorbs_failures (vlm : VLM W) q a g (s : state W) r w :
  inference vlm (JUDGE_PROMPT_TEMPLATE q g a) None (Some 5%nat) (world s) = (r, w) ->
  (forall e, r = Raise e ->
     judge_answer vlm q a g s
     = (Ok 0%Z, logged (moved s w) [(ERROR, JudgeError e)])) /\
  (r = Ok PyNone ->
     judge_answer vlm q a g s
     = (Ok 0%Z, logged (moved s w) [(WARNING, JudgeNoResponse)])).
Proof.
  intros E. rewrite judge_answer_eq, E. split.
  - intros e ->. reflexivity.
  - intros ->. reflexivity.
Qed.

(** X2.  The score does not depend on the letter case of the first
    completion nor on white space around it: a judge that answers the
    lower-cased completion, the stripped completion or the completion
    with white space added on either side is given the same score. *)
Theorem judge_ignores_case_and_padding
    (vlm vlm' : VLM W) q a g (s s' : state W) c c' rest rest' w w' :
  inference vlm (JUDGE_PROMPT_TEMPLATE q g a) None (Some 5%nat) (world s)
  = (Ok (PyList (c :: rest)), w) ->
  inference vlm' (JUDGE_PROMPT_TEMPLATE q g a) None (Some 5%nat) (world s')
  = (Ok (PyList (c' :: rest')), w') ->
  (c' = lower c \/ c' = strip c \/
   exists pad pad', blank pad = true /\ blank pad' = true /\
                    c' = pad ++ c ++ pad') ->
  fst (judge_answer vlm' q a g s') = fst (judge_answer vlm q a g s).
Proof.
  intros E E' H. rewrite !judge_answer_eq, E, E'. simpl.
  assert (lower (strip c') = lower (strip c)) as D.
  { destruct H as [-> | [-> | (pad & pad' & Hp & Hp' & ->)]].
    - now rewrite <- StrFacts.lower_strip, StrFacts.lower_idem.
    - now rewrite StrFacts.strip_idem.
    - now rewrite StrFacts.strip_padding. }
  now rewrite D.
Qed.

End JudgeMore.

Lemma judge_absorbs_failures_witness :
  judge_answer Sample.scripted "Is the circle green?" "it is" "yes"
    (Sample.start [Raise Sample.down])
  = (Ok 0%Z, logged (Sample.start []) [(ERROR, JudgeError Sample.down)]).
Proof.
  destruct (judge_absorbs_failures Sample.scripted "Is the circle green?"
              "it is" "yes" (Sample.start [Raise Sample.down])
              (Raise Sample.down) [] eq_refl) as [H _].
  exact (H Sample.down eq_refl).
Defined.

Lemma judge_ignores_case_and_padding_witness :
  fst (judge_answer Sample.scripted "Is the circle green?" "it is" "yes"
         (Sample.start [Ok (PyList ["  Yes. "])]))
  = fst (judge_answer Sample.scripted "Is the circle green?" "it is" "yes"
           (Sample.start [Ok (PyList ["Yes."])])).
Proof.
  apply (judge_ignores_case_and_padding Sample.scripted Sample.scripted
           "Is the circle green?" "it is" "yes"
           (Sample.start [Ok (PyList ["Yes."])])
           (Sample.start [Ok (PyList ["  Yes. "])])
           "Yes." "  Yes. " [] [] [] []).
  - reflexivity.
  - reflexivity.
  - right. right. exists "  ", " ". repeat split; reflexivity.
Defined.

(** ** More on the detector *)

Section MaskMore.

Lemma nth_error_map_inv {A B} (f : A -> B) (l : list A) : forall i y,
  nth_error (map f l) i = Some y -> exists x, nth_error l i = Some x /\ y = f x.
Proof.
  induction l as [|a l IH]; intros [|i] y H; simpl in *; try discriminate.
  - inversion H. eauto.
  - now apply IH.
Qed.

(** Every mask of the loop is computed pixel by pixel. *)
Lemma effective_mask_pixelwise hsv l m :
  In (l, m) (effective_masks hsv) ->
  exists f, m = map (map f) hsv /\
    ((l = "red" /\ f = fun p => if in_red1 p || in_red2 p then 255%Z else 0%Z) \/
     (l = "green" /\ f = Cv2.inRange_pixel (35, 100, 100)%Z (85, 255, 255)%Z) \/
     (l = "blue" /\ f = Cv2.inRange_pixel (100, 150, 0)%Z (140, 255, 255)%Z) \/
     (l = "yellow" /\ f = Cv2.inRange_pixel (20, 100, 100)%Z (30, 255, 255)%Z) \/
     (l = "gray" /\ f = Cv2.inRange_pixel (0, 0, 40)%Z (180, 50, 220)%Z)).
Proof.
  intros [E | [E | [E | [E | [E | []]]]]]; inversion E; subst; clear E.
  - eexists. split; [apply red_mask_map|]. left. now split.
  - eexists. split; [reflexivity|]. right. left. now split.
  - eexists. split; [reflexivity|]. right. right. left. now split.
  - eexists. split; [reflexivity|]. right. right. right. left. now split.
  - eexists. split; [reflexivity|]. right. right. right. right. now split.
Qed.

End MaskMore.

Ltac lit_pixel H :=
  match type of H with
  | (if ?c then _ else _) <> _ =>
      let E := fresh "E" in destruct c eqn:E; [clear H | now elim H]
  end.

Ltac range_facts :=
  repeat match goal with
         | H : _ && _ = true |- _ => apply andb_true_iff in H; destruct H
         | H : _ || _ = true |- _ => apply orb_true_iff in H; destruct H
         | H : (_ <=? _)%Z = true |- _ => apply Z.leb_le in H
         end.

(** X4.  No pixel is lit in the masks of two colours: at one position of
    the image at most one of the five masks the loop extracts contours
    from (red, green, blue, yellow, gray) is non-zero. *)
Theorem no_pixel_in_two_masks hsv i j l1 m1 l2 m2 r1 r2 v1 v2 :
  In (l1, m1) (effective_masks hsv) ->
  In (l2, m2) (effective_masks hsv) ->
  nth_error m1 i = Some r1 -> nth_error r1 j = Some v1 -> v1 <> 0%Z ->
  nth_error m2 i = Some r2 -> nth_error r2 j = Some v2 -> v2 <> 0%Z ->
  l1 = l2.
Proof.
  intros I1 I2 R1 P1 N1 R2 P2 N2.
  destruct (effective_mask_pixelwise hsv l1 m1 I1) as (f1 & -> & C1).
  destruct (effective_mask_pixelwise hsv l2 m2 I2) as (f2 & -> & C2).
  apply nth_error_map_inv in R1. destruct R1 as (row & Hrow & ->).
  apply nth_error_map_inv in R2. destruct R2 as (row' & Hrow' & ->).
  rewrite Hrow in Hrow'. inversion Hrow'; subst row'. clear Hrow'.
  apply nth_error_map_inv in P1. destruct P1 as (p & Hp & ->).
  apply nth_error_map_inv in P2. destruct P2 as (p' & Hp' & ->).
  rewrite Hp in Hp'. inversion Hp'; subst p'. clear Hp' Hp Hrow I1 I2.
  destruct p as [[h s] v].
  destruct C1 as [[-> ->] | [[-> ->] | [[-> ->] | [[-> ->] | [-> ->]]]]];
  destruct C2 as [[-> ->] | [[-> ->] | [[-> ->] | [[-> ->] | [-> ->]]]]];
    try reflexivity; exfalso;
    unfold Cv2.inRange_pixel, in_red1, in_red2, Cv2.in_closed in N1, N2;
    lit_pixel N1; lit_pixel N2; range_facts; lia.
Qed.

Lemma no_pixel_in_two_masks_witness :
  In ("red", red_mask Sample.scene) (effective_masks Sample.scene) /\
  nth_error (red_mask Sample.scene) 0 = Some [255; 255; 0; 0]%Z /\
  nth_error [255; 255; 0; 0]%Z 0 = Some 255%Z /\
  nth_error [255; 255; 0; 0]%Z 1 = Some 255%Z /\
  "red" = "red".
Proof.
  split; [left; reflexivity|]. repeat (split; [reflexivity|]).
  apply (no_pixel_in_two_masks Sample.scene 0 0
           "red" (red_mask Sample.scene) "red" (red_mask Sample.scene)
           [255; 255; 0; 0]%Z [255; 255; 0; 0]%Z 255%Z 255%Z).
  - left. reflexivity.
  - left. reflexivity.
  - reflexivity.
  - reflexivity.
  - discriminate.
  - reflexivity.
  - reflexivity.
  - discriminate.
Defined.

Section DetectorMore.
Context {cv : OpenCV}.

Lemma emitted_stems label cnt new :
  emitted label cnt = Ok new ->
  Forall (fun f => color f = label /\ stems_from f cnt) new.
Proof.
  intros E. pose proof (emitted_cases label cnt) as K. rewrite E in K.
  destruct K as [[-> _] | (area & peri & approx & M & Ea & Hge & Ep & Eap & Em & Hnz & ->)].
  - constructor.
  - constructor; [|constructor]. split; [reflexivity|].
    exists area, peri, approx, M. now repeat split.
Qed.

(** The facts of a successful detection, mask by mask. *)
Lemma detection_segments image_path facts :
  detection image_path = Ok (Some facts) ->
  exists img hsv segs,
    imread image_path = Ok (Some img) /\
    cvtColor_BGR2HSV img = Ok hsv /\
    Forall2 mask_facts (effective_masks hsv) segs /\
    facts = List.concat segs.
Proof.
  intros D. unfold detection, rbind in D.
  destruct (imread image_path) as [[img|]|e] eqn:Ei; try discriminate.
  destruct (cvtColor_BGR2HSV img) as [hsv|e] eqn:Eh; try discriminate.
  destruct (rfold (detect_color hsv) COLOR_BOUNDS []) as [fs|e] eqn:El;
    try discriminate.
  inversion D; subst fs. clear D.
  apply colour_loop in El.
  destruct El as (r & g & b & y & k & Er & Eg & Eb & Ey & Ek & ->).
  apply detect_mask_spec in Er, Eg, Eb, Ey, Ek.
  destruct Er as (cr & nr & Cr & Fr & ->).
  destruct Eg as (cg & ng & Cg & Fg & ->).
  destruct Eb as (cb & nb & Cb & Fb & ->).
  destruct Ey as (cy & ny & Cy & Fy & ->).
  destruct Ek as (ck & nk & Ck & Fk & ->).
  exists img, hsv,
    [List.concat nr; List.concat ng; List.concat nb; List.concat ny; List.concat nk].
  split; [reflexivity|]. split; [assumption|]. split.
  - unfold effective_masks.
    repeat (constructor; [eexists _, _; simpl;
                          split; [eassumption|]; split; [eassumption|reflexivity]|]).
    constructor.
  - simpl. now rewrite app_nil_r, <- !app_assoc.
Qed.

(** X5.  The facts of a successful detection come in the order of the loop
    over the colours (red, green, blue, yellow, gray) and, within a colour,
    in the order [findContours] lists the contours of its mask. *)
Theorem detection_order image_path facts :
  detection image_path = Ok (Some facts) ->
  exists img hsv segs,
    imread image_path = Ok (Some img) /\
    cvtColor_BGR2HSV img = Ok hsv /\
    (forall W (s : state W), detect_objects image_path s = (Ok facts, s)) /\
    Forall2 mask_facts (effective_masks hsv) segs /\
    facts = List.concat segs.
Proof.
  intros D. destruct (detection_segments _ _ D) as (img & hsv & segs & Ei & Eh & F & E).
  exists img, hsv, segs. repeat split; try assumption.
  intros W s. rewrite detect_objects_eq. unfold detected, detect_log.
  rewrite D. now rewrite logged_nil.
Qed.

(** X6.  Every fact of a successful detection stems from a contour of one
    of the five masks: the contour has an area of at least 100 and a
    non-zero area moment, the fact carries the label of the mask, its
    shape is square when the polygon approximation (tolerance 4% of the
    perimeter) has four vertices and circle otherwise, and its coordinates
    are the truncated quotients of the first moments by the area
    moment. *)
Theorem facts_stem_from_contours image_path facts :
  detection image_path = Ok (Some facts) ->
  exists img hsv,
    imread image_path = Ok (Some img) /\
    cvtColor_BGR2HSV img = Ok hsv /\
    Forall (fun f =>
              exists item cs cnt,
                In item (effective_masks hsv) /\
                findContours (snd item) = Ok cs /\ In cnt cs /\
                color f = fst item /\ stems_from f cnt)
           facts.
Proof.
  intros D. destruct (detection_segments _ _ D) as (img & hsv & segs & Ei & Eh & F & ->).
  exists img, hsv. split; [assumption|]. split; [assumption|].
  assert (forall items, Forall2 mask_facts items segs ->
            Forall (fun f =>
                      exists item cs cnt,
                        In item items /\
                        findContours (snd item) = Ok cs /\ In cnt cs /\
                        color f = fst item /\ stems_from f cnt)
                   (List.concat segs)) as G.
  { clear. intros items F.
    induction F as [|item seg items segs Hm _ IH]; simpl; [constructor|].
    apply Forall_app. split.
    - destruct Hm as (cs & news & C & Fn & ->).
      assert (forall pre, incl pre cs ->
                forall ns, Forall2 (fun cnt new => emitted (fst item) cnt = Ok new) pre ns ->
                Forall (fun f =>
                          exists item0 cs0 cnt,
                            In item0 (item :: items) /\
                            findContours (snd item0) = Ok cs0 /\ In cnt cs0 /\
                            color f = fst item0 /\ stems_from f cnt)
                       (List.concat ns)) as K.
      { intros pre Hin ns Fp.
        induction Fp as [|cnt new pre ns E _ IHp]; simpl; [constructor|].
        apply Forall_app. split.
        - apply emitted_stems in E. apply Forall_impl with (2 := E).
          intros f [Hc Hs]. exists item, cs, cnt.
          repeat split; trivial; [now left | apply Hin; now left].
        - apply IHp. intros x Hx. apply Hin. now right. }
      apply (K cs (incl_refl cs) news Fn).
    - apply Forall_impl with (2 := IH).
      intros f (item0 & cs0 & cnt & Hi & C & Hc & Hl & Hs).
      exists item0, cs0, cnt. repeat split; trivial. now right. }
  apply G. exact F.
Qed.

End DetectorMore.

Lemma detection_order_witness :
  detection (cv := Sample.cv) "scene.png"
  = Ok (Some [mkFact "red" "square" (1, 0)%Z; mkFact "green" "square" (2, 0)%Z]) /\
  exists segs,
    Forall2 (mask_facts (cv := Sample.cv)) (effective_masks Sample.scene) segs /\
    [mkFact "red" "square" (1, 0)%Z; mkFact "green" "square" (2, 0)%Z]
    = List.concat segs.
Proof.
  assert (detection (cv := Sample.cv) "scene.png"
          = Ok (Some [mkFact "red" "square" (1, 0)%Z;
                      mkFact "green" "square" (2, 0)%Z])) as D
    by (vm_compute; reflexivity).
  split; [exact D|].
  destruct (detection_order (cv := Sample.cv) "scene.png" _ D)
    as (img & hsv & segs & Ei & Eh & _ & F & E).
  assert (hsv = Sample.scene) as ->.
  { vm_compute in Ei. inversion Ei; subst img.
    vm_compute in Eh. now inversion Eh. }
  exists segs. split; [exact F | exact E].
Defined.

Lemma facts_stem_from_contours_witness :
  detection (cv := Sample.cv) "scene.png"
  = Ok (Some [mkFact "red" "square" (1, 0)%Z; mkFact "green" "square" (2, 0)%Z]) /\
  Forall (fun f => exists cnt, stems_from (cv := Sample.cv) f cnt)
    [mkFact "red" "square" (1, 0)%Z; mkFact "green" "square" (2, 0)%Z].
Proof.
  assert (detection (cv := Sample.cv) "scene.png"
          = Ok (Some [mkFact "red" "square" (1, 0)%Z;
                      mkFact "green" "square" (2, 0)%Z])) as D
    by (vm_compute; reflexivity).
  split; [exact D|].
  destruct (facts_stem_from_contours (cv := Sample.cv) "scene.png" _ D)
    as (img & hsv & _ & _ & F).
  apply Forall_impl with (2 := F).
  intros f (item & cs & cnt & _ & _ & _ & _ & H). now exists cnt.
Defined.

(** ** More on the loop bodies *)

Section RowsMore.
Context {W : Type} {cv : OpenCV}.

(** X7.  A failed detection does not stop a row of the classic agent: when
    the image cannot be read, or when the detector's [try] block raises,
    the row logs the detector's line and goes on to ask the model with the
    scene context that says no objects were detected. *)
Theorem classic_row_survives_detection_failure
    (vlm judge_vlm : VLM W) index r (s : state W) :
  let ask := fun t =>
    bind (call_inference vlm
            (enhanced_prompt_of
               "Scene Context: No objects were detected by the CV system."
               (question r))
            (Some (image_path r)) None)
      (fun model_answer_list =>
         bind (if truthy model_answer_list then lift (item0 model_answer_list)
               else ret EmptyString)
           (fun model_answer =>
              bind (predictions_append model_answer)
                (fun _ =>
                   bind (judge_answer judge_vlm (question r) model_answer (answer r))
                     scores_append))) t in
  (imread (image_path r) = Ok None ->
     classic_agent_row vlm judge_vlm (index, r) s
     = ask (logged s [(WARNING, CouldNotRead (image_path r))])) /\
  (forall e, detection (image_path r) = Raise e ->
     classic_agent_row vlm judge_vlm (index, r) s
     = ask (logged s [(ERROR, DetectionError (image_path r) e)])).
Proof.
  cbv zeta. split.
  - intros E. unfold classic_agent_row. unfold bind at 1.
    rewrite detect_objects_eq. unfold detected, detect_log, detection, rbind.
    rewrite E. reflexivity.
  - intros e E. unfold classic_agent_row. unfold bind at 1.
    rewrite detect_objects_eq. unfold detected, detect_log.
    rewrite E. reflexivity.
Qed.

(** X9.  A row of the zero-shot driver whose model call returns: the
    prediction is the first completion, or the empty string with a warning
    that names the row when there is none; it is judged by one call of the
    judge on the question, the prediction and the ground truth, in the
    world the model call left, and the score of that call is appended. *)
Theorem zero_shot_row_answered
    (vlm judge_vlm : VLM W) index r (s : state W) resp w rj w' :
  inference vlm (question r) (Some (image_path r)) None (world s) = (Ok resp, w) ->
  let model_answer := text_or resp EmptyString in
  inference judge_vlm
    (JUDGE_PROMPT_TEMPLATE (question r) (answer r) model_answer)
    None (Some 5%nat) w = (rj, w') ->
  zero_shot_row vlm judge_vlm (index, r) s
  = (Ok tt,
     mkState w'
       ((log s ++ (if truthy resp then [] else [(WARNING, NoAnswer index)]))
          ++ judge_log rj)
       (predictions s ++ [model_answer])
       (scores s ++ [verdict rj])).
Proof.
  intros E model_answer Ej. subst model_answer.
  unfold zero_shot_row. unfold bind at 1. unfold call_inference at 1.
  rewrite E.
  destruct resp as [|[|c l]]; simpl truthy; cbv beta iota; simpl negb;
    cbv beta iota.
  - unfold bind, logging, ret, predictions_append, scores_append.
    cbn [world log predictions scores]. rewrite judge_answer_eq.
    cbn [world]. simpl text_or in Ej. rewrite Ej. reflexivity.
  - unfold bind, logging, ret, predictions_append, scores_append.
    cbn [world log predictions scores]. rewrite judge_answer_eq.
    cbn [world]. simpl text_or in Ej. rewrite Ej. reflexivity.
  - unfold bind, lift, item0, predictions_append, scores_append.
    cbn [world log predictions scores]. rewrite judge_answer_eq.
    cbn [world]. simpl text_or in Ej. rewrite Ej.
    unfold logged, moved. cbn [world log predictions scores].
    now rewrite app_nil_r.
Qed.

(** X10.  In a row of the DL agent an exception of a model call ends the
    row at that call: the row raises it, the world is the one the failing
    call left (no later call is made, the judge is not asked), and the
    log, the predictions and the scores are as before the row. *)
Theorem dl_row_stops_at_failing_call
    (vlm judge_vlm : VLM W) index r (s : state W) :
  (forall e w1,
      inference vlm (plan_prompt_of (question r)) (Some (image_path r))
        (Some 100%nat) (world s) = (Raise e, w1) ->
      dl_agent_row vlm judge_vlm (index, r) s = (Raise e, moved s w1)) /\
  (forall plan_list e w1 w2,
      inference vlm (plan_prompt_of (question r)) (Some (image_path r))
        (Some 100%nat) (world s) = (Ok plan_list, w1) ->
      inference vlm extract_prompt (Some (image_path r)) (Some 150%nat) w1
      = (Raise e, w2) ->
      dl_agent_row vlm judge_vlm (index, r) s = (Raise e, moved s w2)) /\
  (forall plan_list context_list e w1 w2 w3,
      inference vlm (plan_prompt_of (question r)) (Some (image_path r))
        (Some 100%nat) (world s) = (Ok plan_list, w1) ->
      inference vlm extract_prompt (Some (image_path r)) (Some 150%nat) w1
      = (Ok context_list, w2) ->
      inference vlm
        (final_prompt_of (question r)
           (text_or plan_list "No plan generated.")
           (text_or context_list "No context extracted."))
        (Some (image_path r)) None w2 = (Raise e, w3) ->
      dl_agent_row vlm judge_vlm (index, r) s = (Raise e, moved s w3)).
Proof.
  assert (forall xs d (t : state W),
             first_or (W := W) xs d t = (Ok (text_or xs d), t)) as Hfirst.
  { intros [|[|c l]] d t; reflexivity. }
  split; [|split].
  - intros e w1 E. unfold dl_agent_row. unfold bind at 1.
    unfold call_inference at 1. now rewrite E.
  - intros plan_list e w1 w2 E1 E2. unfold dl_agent_row.
    unfold bind at 1. unfold call_inference at 1. rewrite E1.
    unfold bind at 1. rewrite Hfirst.
    unfold bind at 1. unfold call_inference at 1.
    cbn [world log predictions scores]. now rewrite E2.
  - intros plan_list context_list e w1 w2 w3 E1 E2 E3. unfold dl_agent_row.
    unfold bind at 1. unfold call_inference at 1. rewrite E1.
    unfold bind at 1. rewrite Hfirst.
    unfold bind at 1. unfold call_inference at 1.
    cbn [world log predictions scores]. rewrite E2.
    unfold bind at 1. rewrite Hfirst.
    unfold dl_agent_synthesize. unfold bind at 1. unfold call_inference at 1.
    cbn [world log predictions scores]. now rewrite E3.
Qed.

End RowsMore.

Lemma classic_row_survives_detection_failure_witness :
  fst (classic_agent_row (cv := Sample.cv) Sample.scripted Sample.scripted
         (1%nat, mkRow "What shape is on the left?" "circle" "missing.png")
         (Sample.start [Ok (PyList ["a square"]); Ok (PyList ["No"])]))
  = Ok tt.
Proof.
  destruct (classic_row_survives_detection_failure (cv := Sample.cv)
              Sample.scripted Sample.scripted 1%nat
              (mkRow "What shape is on the left?" "circle" "missing.png")
              (Sample.start [Ok (PyList ["a square"]); Ok (PyList ["No"])]))
    as [H _].
  rewrite (H eq_refl). vm_compute. reflexivity.
Defined.

Lemma zero_shot_row_answered_witness :
  zero_shot_row Sample.scripted Sample.scripted (4%nat, Sample.row3)
    (Sample.start [Ok (PyList []); Ok (PyList ["No"])])
  = (Ok tt,
     mkState [] [(WARNING, NoAnswer 4)] [EmptyString] [0%Z]).
Proof.
  apply (zero_shot_row_answered Sample.scripted Sample.scripted 4%nat Sample.row3
           (Sample.start [Ok (PyList []); Ok (PyList ["No"])])
           (PyList []) [Ok (PyList ["No"])] (Ok (PyList ["No"])) []).
  - reflexivity.
  - reflexivity.
Defined.

Lemma dl_row_stops_at_failing_call_witness :
  dl_agent_row Sample.scripted Sample.scripted (0%nat, Sample.row3)
    (Sample.start [Ok (PyList ["look at the circle"]); Raise Sample.down;
                   Ok (PyList ["never read"])])
  = (Raise Sample.down, Sample.start [Ok (PyList ["never read"])]).
Proof.
  destruct (dl_row_stops_at_failing_call Sample.scripted Sample.scripted 0%nat
              Sample.row3
              (Sample.start [Ok (PyList ["look at the circle"]); Raise Sample.down;
                             Ok (PyList ["never read"])]))
    as (_ & H & _).
  apply (H (PyList ["look at the circle"]) Sample.down
           [Raise Sample.down; Ok (PyList ["never read"])]
           [Ok (PyList ["never read"])]).
  - reflexivity.
  - reflexivity.
Defined.

(** ** The scene context *)

Lemma lines_of_app xs ys : lines_of (xs ++ ys) = lines_of xs ++ lines_of ys.
Proof.
  induction xs as [|x xs IH]; [reflexivity|].
  change (lines_of ((x :: xs) ++ ys)) with (fact_line x ++ lines_of (xs ++ ys)).
  change (lines_of (x :: xs)) with (fact_line x ++ lines_of xs).
  now rewrite IH, append_assoc.
Qed.

Lemma fold_lines (objects : list fact) : forall acc,
  fold_left
    (fun scene_context obj =>
       scene_context ++ "- A " ++ color obj ++ " " ++ shape obj
       ++ " at coordinates " ++ str_of_coords (coords obj) ++ nl)
    objects acc
  = acc ++ lines_of objects.
Proof.
  induction objects as [|obj objects IH]; intros acc.
  - cbn [fold_left]. change (lines_of []) with EmptyString.
    now rewrite append_empty.
  - cbn [fold_left]. rewrite IH.
    change (lines_of (obj :: objects)) with (fact_line obj ++ lines_of objects).
    unfold fact_line. now rewrite append_assoc.
Qed.

(** X8.  The scene context of a non-empty list of objects is the header
    line followed by one line per object, in the order of the list, so the
    context of a longer list continues the context of its beginning; only
    the empty list gives the sentence that no objects were detected. *)
Theorem scene_context_lines (obj : fact) (objects more : list fact) :
  scene_context_of [] = "Scene Context: No objects were detected by the CV system." /\
  scene_context_of (obj :: objects)
  = "Scene Context: The following objects were detected:" ++ nl
    ++ lines_of (obj :: objects) /\
  scene_context_of ((obj :: objects) ++ more)
  = scene_context_of (obj :: objects) ++ lines_of more.
Proof.
  split; [reflexivity|].
  assert (forall o os,
             scene_context_of (o :: os)
             = "Scene Context: The following objects were detected:" ++ nl
               ++ lines_of (o :: os)) as H.
  { intros o os. unfold scene_context_of. rewrite fold_lines.
    now rewrite append_assoc. }
  split; [apply H|].
  change ((obj :: objects) ++ more)%list with (obj :: (objects ++ more)%list).
  rewrite !H.
  change (obj :: (objects ++ more)%list) with ((obj :: objects) ++ more)%list.
  rewrite lines_of_app. now rewrite !append_assoc.
Qed.

(** ** More on the drivers *)

Section DriversMore.
Context {W : Type} {cv : OpenCV}.

(** X11.  The rows after the one that raised are not attempted: the
    outcome of a driver, result and final state, is the same whatever
    follows the failing row in the dataset. *)
Theorem later_rows_not_attempted p run body :
  In (p, run, body) (drivers (W := W)) ->
  forall vlm judge_vlm done r rest rest' (s sk se : state W) e,
    for_each (iterrows done) (body vlm judge_vlm) (entered p s) = (Ok tt, sk) ->
    body vlm judge_vlm (List.length done, r) sk = (Raise e, se) ->
    run vlm (done ++ r :: rest)%list judge_vlm s
    = run vlm (done ++ r :: rest')%list judge_vlm s.
Proof.
  intros Hin vlm judge_vlm done r rest rest' s sk se e Hdone Hrow.
  destruct (drivers_shape p run body Hin) as [Hrun _].
  rewrite !Hrun, !run_driver_eq, !iterrows_app, !for_each_app, Hdone.
  unfold iterrows_from. simpl. unfold bind. now rewrite Hrow.
Qed.

Lemma returns_bind {A B} (m : M W A) (k : A -> M W B) :
  returns m -> (forall a, returns (k a)) -> returns (bind m k).
Proof.
  intros Hm Hk s. unfold bind. destruct (Hm s) as (a & s1 & ->). apply Hk.
Qed.

Lemma returns_call (vlm : VLM W) prompt img tokens :
  always_answers vlm -> returns (call_inference vlm prompt img tokens).
Proof.
  intros H s. unfold call_inference.
  destruct (H prompt img tokens (world s)) as (resp & w & ->). eauto.
Qed.

Lemma returns_first_or (xs : response) d : returns (W := W) (first_or xs d).
Proof.
  intros s. unfold first_or, lift, ret. destruct xs as [|[|c l]]; simpl; eauto.
Qed.

Lemma returns_judged (judge_vlm : VLM W) q a g :
  returns (bind (predictions_append a)
             (fun _ => bind (judge_answer judge_vlm q a g) scores_append)).
Proof.
  intros s. unfold bind, predictions_append, scores_append.
  rewrite judge_answer_eq.
  destruct (inference judge_vlm _ None (Some 5%nat) _) as [r w]. eauto.
Qed.

Lemma rows_return p run body :
  In (p, run, body) (drivers (W := W)) ->
  forall vlm judge_vlm, always_answers vlm ->
  forall it, returns (body vlm judge_vlm it).
Proof.
  intros [E | [E | [E | []]]] vlm judge_vlm Hv [index r]; inversion E; subst.
  - unfold zero_shot_row.
    apply returns_bind; [now apply returns_call|]. intros answers.
    apply returns_bind; [|intros a; apply returns_judged].
    intros s. destruct answers as [|[|c l]];
      unfold bind, logging, ret, lift; simpl; eauto.
  - unfold classic_agent_row.
    apply returns_bind; [intros s; rewrite detect_objects_eq; eauto|].
    intros objects.
    apply returns_bind; [now apply returns_call|]. intros answers.
    apply returns_bind; [|intros a; apply returns_judged].
    intros s. destruct answers as [|[|c l]];
      unfold lift, ret; simpl; eauto.
  - unfold dl_agent_row.
    apply returns_bind; [now apply returns_call|]. intros plan_list.
    apply returns_bind; [apply returns_first_or|]. intros plan.
    apply returns_bind; [now apply returns_call|]. intros context_list.
    apply returns_bind; [apply returns_first_or|]. intros context.
    unfold dl_agent_synthesize.
    apply returns_bind; [now apply returns_call|]. intros answers.
    apply returns_bind; [apply returns_first_or|]. intros a.
    apply returns_judged.
Qed.

Lemma for_each_returns {A} (xs : list A) (body : A -> M W unit) :
  (forall x, returns (body x)) -> returns (for_each xs body).
Proof.
  intros H. induction xs as [|x xs IH]; simpl.
  - intros s. unfold ret. eauto.
  - apply returns_bind; [apply H | intros _; exact IH].
Qed.

(** X12.  When the model under test answers every call, a driver gets
    through the whole dataset whatever the judge does: it returns one
    prediction per row and an accuracy between 0 and 1, and logs its
    completion. *)
Theorem driver_completes_when_model_answers p run body :
  In (p, run, body) (drivers (W := W)) ->
  forall vlm judge_vlm, always_answers vlm ->
  forall dataset (s : state W),
    exists acc s2,
      for_each (iterrows dataset) (body vlm judge_vlm) (entered p s) = (Ok tt, s2) /\
      run vlm dataset judge_vlm s
      = (Ok (acc, predictions s2), logged s2 [(INFO, Complete p acc)]) /\
      List.length (predictions s2) = List.length dataset /\
      (0 <= acc)%Q /\ (acc <= 1)%Q.
Proof.
  intros Hin vlm judge_vlm Hv dataset s.
  destruct (drivers_shape p run body Hin) as [Hrun Hstep].
  destruct (for_each_returns (iterrows dataset) (body vlm judge_vlm)
              (rows_return p run body Hin vlm judge_vlm Hv) (entered p s))
    as ([] & s2 & Hloop).
  destruct (for_each_inv _ (Hstep vlm judge_vlm) (iterrows dataset) (entered p s))
    as (ps & scs & Ep & Es & Lp & Ls & Fb & Hr).
  rewrite Hloop in Ep, Es, Hr. simpl in Ep, Es, Hr.
  rewrite Hr, length_iterrows in Lp.
  destruct (accuracy_of_binary scs Fb) as (acc & Ea & _ & _ & H0 & H1).
  exists acc, s2. split; [exact Hloop|].
  rewrite Hrun, run_driver_eq, Hloop, Es, Ea, Ep.
  repeat split; assumption.
Qed.

End DriversMore.

Lemma later_rows_not_attempted_witness :
  run_zero_shot Sample.scripted Sample.rows3 Sample.scripted
    (Sample.start Sample.script_fail3)
  = run_zero_shot Sample.scripted
      (firstn 2 Sample.rows3 ++ [Sample.row3; Sample.row3; Sample.row3])
      Sample.scripted (Sample.start Sample.script_fail3).
Proof.
  apply (later_rows_not_attempted (cv := Sample.cv)
           ZeroShot run_zero_shot zero_shot_row (or_introl eq_refl)
           Sample.scripted Sample.scripted (firstn 2 Sample.rows3) Sample.row3
           [] [Sample.row3; Sample.row3]
           (Sample.start Sample.script_fail3)
           (snd Sample.after_two)
           (snd (zero_shot_row Sample.scripted Sample.scripted
                   (2%nat, Sample.row3) (snd Sample.after_two)))
           Sample.down).
  - vm_compute. reflexivity.
  - vm_compute. reflexivity.
Defined.

Lemma driver_completes_when_model_answers_witness :
  exists acc s2,
    run_dl_agent_pipeline SampleMore.steady Sample.rows3 Sample.scripted
      (Sample.start SampleMore.verdicts)
    = (Ok (acc, predictions s2), logged s2 [(INFO, Complete DLAgent acc)]) /\
    List.length (predictions s2) = 3%nat.
Proof.
  destruct (driver_completes_when_model_answers (cv := Sample.cv)
              DLAgent run_dl_agent_pipeline dl_agent_row
              (or_intror (or_intror (or_introl eq_refl)))
              SampleMore.steady Sample.scripted)
    with (dataset := Sample.rows3) (s := Sample.start SampleMore.verdicts)
    as (acc & s2 & _ & E & L & _).
  - intros prompt img tokens w. exists (PyList ["red"]), w. reflexivity.
  - exists acc, s2. split; [exact E | exact L].
Defined.

(** ** One-word completions *)

Section OneWord.
Context {W : Type}.

Lemma all_word_app a b : all_word (a ++ b) = all_word a && all_word b.
Proof.
  induction a as [|x a IH]; simpl; [reflexivity|].
  now rewrite IH, andb_assoc.
Qed.

Lemma all_word_last s : forall p,
  all_word s = true -> s <> EmptyString -> Re.wordy (Re.last p s) = true.
Proof.
  induction s as [|c s IH]; intros p H N; [now elim N|].
  simpl in H. apply andb_true_iff in H. destruct H as [Hc Hs].
  destruct s as [|d s]; [exact Hc|].
  change (Re.last p (String c (String d s))) with (Re.last (Some c) (String d s)).
  apply IH; [assumption | discriminate].
Qed.

Lemma standalone_all_word lit d :
  all_word d = true -> Re.standalone lit d -> d = lit.
Proof.
  intros H (pre & post & -> & Hp & Hq).
  rewrite !all_word_app in H.
  apply andb_true_iff in H. destruct H as [Hpre H].
  apply andb_true_iff in H. destruct H as [_ Hpost].
  destruct pre as [|c pre].
  - destruct post as [|c post]; [simpl; apply append_empty|].
    simpl in Hq, Hpost. apply andb_true_iff in Hpost. destruct Hpost. congruence.
  - rewrite (all_word_last (String c pre) None Hpre) in Hp by discriminate.
    discriminate.
Qed.

(** X3.  When the stripped, lower-cased first completion is one run of
    word characters, the judge scores 1 exactly when it is the word yes:
    a longer word that contains yes (yesterday, eyes, yes_no) scores 0. *)
Theorem one_word_completion (vlm : VLM W) q a g (s : state W) c rest w :
  inference vlm (JUDGE_PROMPT_TEMPLATE q g a) None (Some 5%nat) (world s)
  = (Ok (PyList (c :: rest)), w) ->
  all_word (lower (strip c)) = true ->
  (fst (judge_answer vlm q a g s) = Ok 1%Z <-> lower (strip c) = "yes") /\
  (lower (strip c) <> "yes" -> fst (judge_answer vlm q a g s) = Ok 0%Z).
Proof.
  intros E H. rewrite judge_answer_eq, E. simpl.
  pose proof (ReFacts.search_word_standalone "yes" (lower (strip c))
                ReFacts.word_literal_yes) as Hy.
  destruct (Re.search_word "yes" (lower (strip c))) eqn:S.
  - assert (lower (strip c) = "yes") as D.
    { apply standalone_all_word; [assumption | now apply Hy]. }
    split; [now split | intros N; now elim N].
  - assert (lower (strip c) <> "yes") as D.
    { intros D. rewrite D in S. discriminate. }
    split; [|reflexivity]. split; [discriminate | intros D'; now elim D].
Qed.

End OneWord.

Lemma one_word_completion_witness :
  fst (judge_answer Sample.scripted "Is the circle green?" "it is" "yes"
         (Sample.start [Ok (PyList ["Yesterday"])]))
  = Ok 0%Z.
Proof.
  destruct (one_word_completion Sample.scripted "Is the circle green?" "it is"
              "yes" (Sample.start [Ok (PyList ["Yesterday"])])
              "Yesterday" [] [] eq_refl eq_refl) as [_ H].
  apply H. discriminate.
Defined.
